(** * Logo page transition: a shallow embedding of [transition.js]

    The development models the [LogoTransition] class of [transition.js]:
    the parameter resolver ([getServiceData]), the session-storage handoff
    ([startTransition] / [checkIncomingTransition]), the geometry of the
    expand and shrink phases, and the overlay life cycle, as state-passing
    functions over an explicit document state driven by browser events.

    Conventions of the model.
    - A JavaScript number is [NaN], an infinity, or a rational: binary64
      rounding, overflow, underflow and the sign of zero are not
      represented.  Finite results of arithmetic are kept in lowest terms,
      so equal numbers are equal terms.  Statements about numbers are
      written with the operations of the source, in its order; where the
      rounding of binary64 decides a question, the formula is evaluated on
      the machine floats (module [Binary64]).
    - Strings are sequences of code units below 256; the white space
      skipped by the parsers is the white space of the language below 256.
    - The text held by [sessionStorage] is represented by what [JSON.parse]
      makes of it (see [StoredText]): text that is not JSON, the text
      [null], or an object whose members are scalars.  Objects with array
      or object members are outside the model.
    - Suspended [async] bodies are continuations ([Kont]) parked in the
      state until the animation or timer they wait for fires. *)

From Stdlib Require Import QArith Qreduction ZArith Ascii String Bool List Lia.
From Stdlib Require PrimFloat.
From stdpp Require Import base option list gmap strings.

Local Open Scope Z_scope.

(** ** Numbers *)

Module Num.

Inductive number : Type :=
| NaN
| Inf (negative : bool)
| Fin (q : Q).

Definition Qneg (q : Q) : bool := (Qnum q <? 0)%Z.
Definition Qzero (q : Q) : bool := (Qnum q =? 0)%Z.

Definition of_Z (z : Z) : number := Fin (inject_Z z).

(** [a + b] *)
Definition add (a b : number) : number :=
  match a, b with
  | NaN, _ | _, NaN => NaN
  | Inf x, Inf y => if Bool.eqb x y then Inf x else NaN
  | Inf x, Fin _ => Inf x
  | Fin _, Inf y => Inf y
  | Fin p, Fin q => Fin (Qred (p + q))
  end.

(** [a - b] *)
Definition sub (a b : number) : number :=
  match a, b with
  | NaN, _ | _, NaN => NaN
  | Inf x, Inf y => if Bool.eqb x y then NaN else Inf x
  | Inf x, Fin _ => Inf x
  | Fin _, Inf y => Inf (negb y)
  | Fin p, Fin q => Fin (Qred (p - q))
  end.

(** [a * b] *)
Definition mul (a b : number) : number :=
  match a, b with
  | NaN, _ | _, NaN => NaN
  | Inf x, Inf y => Inf (xorb x y)
  | Inf x, Fin q | Fin q, Inf x => if Qzero q then NaN else Inf (xorb x (Qneg q))
  | Fin p, Fin q => Fin (Qred (p * q))
  end.

(** [a / b]; a zero divisor counts as positive zero. *)
Definition div (a b : number) : number :=
  match a, b with
  | NaN, _ | _, NaN => NaN
  | Inf _, Inf _ => NaN
  | Inf x, Fin q => Inf (xorb x (Qneg q))
  | Fin _, Inf _ => Fin 0
  | Fin p, Fin q =>
      if Qzero q then (if Qzero p then NaN else Inf (Qneg p))
      else Fin (Qred (p / q))
  end.

(** [Math.max(a, b)] *)
Definition max (a b : number) : number :=
  match a, b with
  | NaN, _ | _, NaN => NaN
  | Inf false, _ | _, Inf false => Inf false
  | Inf true, x | x, Inf true => x
  | Fin p, Fin q => if Qle_bool p q then Fin q else Fin p
  end.

(** [a > b] *)
Definition gt (a b : number) : bool :=
  match a, b with
  | NaN, _ | _, NaN => false
  | Inf false, Inf false => false
  | Inf false, _ => true
  | _, Inf false => false
  | Inf true, _ => false
  | Fin _, Inf true => true
  | Fin p, Fin q => negb (Qle_bool p q)
  end.

(** ToBoolean on a number: [NaN] and zero are falsy. *)
Definition truthy (a : number) : bool :=
  match a with
  | NaN => false
  | Inf _ => true
  | Fin q => negb (Qzero q)
  end.

End Num.

Export Num(number, NaN, Inf, Fin).

Declare Scope num_scope.
Delimit Scope num_scope with num.
Bind Scope num_scope with number.
Infix "+" := Num.add : num_scope.
Infix "-" := Num.sub : num_scope.
Infix "*" := Num.mul : num_scope.
Infix "/" := Num.div : num_scope.
Infix ">" := Num.gt : num_scope.

(** Number literals of the source. *)
Definition n0 : number := Fin 0.
Definition n2 : number := Fin 2.
Definition n15 : number := Fin 15.
Definition n64 : number := Fin 64.
Definition n100 : number := Fin 100.
Definition n3000 : number := Fin 3000.

(** ** Numeric strings: [parseFloat] and ToNumber on strings *)

Module Lex.

Definition is_ws (c : ascii) : bool :=
  let n := nat_of_ascii c in
  (n =? 9)%nat || (n =? 10)%nat || (n =? 11)%nat || (n =? 12)%nat
  || (n =? 13)%nat || (n =? 32)%nat || (n =? 160)%nat.

Fixpoint trimStart (s : string) : string :=
  match s with
  | String c r => if is_ws c then trimStart r else s
  | EmptyString => s
  end.

Fixpoint all_ws (s : string) : bool :=
  match s with
  | String c r => is_ws c && all_ws r
  | EmptyString => true
  end.

Definition digit (base : Z) (c : ascii) : option Z :=
  let n := Z.of_nat (nat_of_ascii c) in
  let v :=
    if (48 <=? n) && (n <=? 57) then Some (n - 48)
    else if (97 <=? n) && (n <=? 102) then Some (n - 87)
    else if (65 <=? n) && (n <=? 70) then Some (n - 55)
    else None in
  match v with
  | Some d => if d <? base then Some d else None
  | None => None
  end.

(** Reads the longest run of digits: the accumulated value, how many digits
    were read, and the rest of the string. *)
Fixpoint digits (base : Z) (s : string) (acc : Z) (cnt : Z) : Z * Z * string :=
  match s with
  | String c r =>
      match digit base c with
      | Some d => digits base r (acc * base + d) (cnt + 1)
      | None => (acc, cnt, s)
      end
  | EmptyString => (acc, cnt, s)
  end.

(** Optional sign: [true] for a minus. *)
Definition sign (s : string) : bool * string :=
  match s with
  | String "-" r => (true, r)
  | String "+" r => (false, r)
  | _ => (false, s)
  end.

(** ExponentPart, when well formed; otherwise nothing is consumed. *)
Definition exponent (s : string) : Z * string :=
  match s with
  | String c r =>
      if (Ascii.eqb c "e" || Ascii.eqb c "E")%bool then
        let '(neg, r1) := sign r in
        let '(e, n, r2) := digits 10 r1 0 0 in
        if n =? 0 then (0, s) else ((if neg then - e else e), r2)
      else (0, s)
  | EmptyString => (0, s)
  end.

(** Longest prefix that is an unsigned decimal literal other than
    [Infinity]: its value and the rest. *)
Definition decimal (s : string) : option (Q * string) :=
  let '(ip, ni, r1) := digits 10 s 0 0 in
  let mant :=
    match r1 with
    | String "." r =>
        let '(m, nf, r2) := digits 10 r ip 0 in
        if (ni =? 0) && (nf =? 0) then None else Some (m, nf, r2)
    | _ => if ni =? 0 then None else Some (ip, 0, r1)
    end in
  match mant with
  | Some (m, nf, r2) =>
      let '(e, r3) := exponent r2 in
      Some ((inject_Z m * Qpower 10 (e - nf))%Q, r3)
  | None => None
  end.

Definition signed (neg : bool) (q : Q) : number :=
  Fin (Qred (if neg then - q else q)).

(** Longest prefix that is a StrDecimalLiteral. *)
Definition literal (s : string) : option (number * string) :=
  let '(neg, r) := sign s in
  if String.prefix "Infinity" r
  then Some (Inf neg, String.substring 8 (String.length r - 8) r)
  else match decimal r with
       | Some (q, r') => Some (signed neg q, r')
       | None => None
       end.

(** [parseFloat(s)] for a string [s]. *)
Definition parseFloat_string (s : string) : number :=
  match literal (trimStart s) with
  | Some (n, _) => n
  | None => NaN
  end.

Definition radix_literal (base : Z) (s : string) : number :=
  let '(v, n, r) := digits base s 0 0 in
  if (0 <? n) && all_ws r then Num.of_Z v else NaN.

(** ToNumber applied to a string (StringToNumber). *)
Definition StringToNumber (s : string) : number :=
  let t := trimStart s in
  match t with
  | EmptyString => n0
  | String "0" (String c r) =>
      if (Ascii.eqb c "x" || Ascii.eqb c "X")%bool then radix_literal 16 r
      else if (Ascii.eqb c "o" || Ascii.eqb c "O")%bool then radix_literal 8 r
      else if (Ascii.eqb c "b" || Ascii.eqb c "B")%bool then radix_literal 2 r
      else match literal t with
           | Some (n, r') => if all_ws r' then n else NaN
           | None => NaN
           end
  | _ => match literal t with
         | Some (n, r') => if all_ws r' then n else NaN
         | None => NaN
         end
  end.

End Lex.

(** ** Values, JSON and the stored text *)

Inductive jsval : Type :=
| VUndefined
| VNull
| VBool (b : bool)
| VNum (n : number)
| VStr (s : string).

(** Scalar JSON values: a JSON number is always finite. *)
Inductive json : Type :=
| JNull
| JBool (b : bool)
| JNum (q : Q)
| JStr (s : string).

Definition of_json (j : json) : jsval :=
  match j with
  | JNull => VNull
  | JBool b => VBool b
  | JNum q => VNum (Fin q)
  | JStr s => VStr s
  end.

(** How [JSON.stringify] writes a number: [NaN] and the infinities become
    [null]. *)
Definition json_of_number (n : number) : json :=
  match n with
  | Fin q => JNum q
  | _ => JNull
  end.

Definition ToNumber (v : jsval) : number :=
  match v with
  | VUndefined => NaN
  | VNull => n0
  | VBool b => if b then Fin 1 else n0
  | VNum n => n
  | VStr s => Lex.StringToNumber s
  end.

Definition ToBoolean (v : jsval) : bool :=
  match v with
  | VUndefined | VNull => false
  | VBool b => b
  | VNum n => Num.truthy n
  | VStr s => negb (String.eqb s "")
  end.

(** [a || b] *)
Definition js_or (a b : jsval) : jsval := if ToBoolean a then a else b.

(** [a || b] where both operands are numbers. *)
Definition num_or (a b : number) : number := if Num.truthy a then a else b.

(** [parseFloat(x)] where [x] is a [dataset] entry: a string, or
    [undefined] when the attribute is absent. *)
Definition parseFloat (x : option string) : number :=
  match x with
  | Some s => Lex.parseFloat_string s
  | None => NaN
  end.

(** A JSON object whose members are scalars. *)
Abbreviation JObject := (gmap string json).

(** The string held under the key ['transitionData'], represented by what
    [JSON.parse] makes of it: text that is not JSON (the empty string
    included), the text [null], or the text of an object.  Any other JSON
    text denotes a value on which every property the program reads is
    [undefined], as on [JSONObject ∅]. *)
Inductive StoredText : Type :=
| NotJSON (s : string)
| JSONNull
| JSONObject (m : JObject).

(** [!text] for a string: only the empty string is falsy. *)
Definition text_is_empty (t : StoredText) : bool :=
  match t with
  | NotJSON s => String.eqb s ""
  | _ => false
  end.

(** [data.key] on an object produced by [JSON.parse]. *)
Definition prop (m : JObject) (key : string) : jsval :=
  match m !! key with
  | Some j => of_json j
  | None => VUndefined
  end.

(** ** Geometry *)

Record Rect : Type := mkRect {
  r_left : number;
  r_top : number;
  r_width : number;
  r_height : number
}.

(** ** Document, object and event-loop state *)

Record Element : Type := mkElement {
  el_id : nat;
  innerHTML : jsval;
  cssText : Rect
}.

Record HeroLogo : Type := mkHero {
  hero_opacity : string;      (* style.opacity *)
  hero_visible : bool         (* classList contains 'visible' *)
}.

Record Keyframe : Type := mkKeyframe {
  kf_box : option Rect;
  kf_opacity : number
}.

Inductive Wake : Type :=
| Animation (target : nat) (from to : Keyframe) (duration : Z)
| Timeout (ms : Z).

(** What resumes when a wake-up fires: the rest of an [async] body after
    its [await], or an [onfinish] handler. *)
Inductive Kont : Type :=
| AfterExpand (targetUrl : jsval)            (* startTransition, line 112 *)
| AfterSettle (data : JObject)               (* completeTransition, 210-211 *)
| ShrinkFinished (k : Kont)                  (* shrinkLogo, 289-297 *)
| AfterShrink                                (* completeTransition, 213-221 *)
| PreviewExpanded (rect target : Rect)       (* previewTransition, 556 *)
| PreviewHeld (rect target : Rect)           (* previewTransition, 559-564 *)
| PreviewShrunk.                             (* previewTransition, 566-568 *)

Record Task : Type := mkTask {
  task_id : nat;
  wake : Wake;
  kont : Kont
}.

Record State : Type := mkState {
  (* browser *)
  sessionStorage : option StoredText;  (* the item 'transitionData' *)
  location : option jsval;             (* last value assigned to location.href *)
  body_transitioning : bool;           (* body.classList has 'transitioning' *)
  body_backgroundColor : jsval;        (* last value assigned *)
  transition_color : option jsval;     (* --transition-color on the root *)
  servicePage : option bool;           (* '.service-page'; its 'visible' class *)
  heroLogo : option HeroLogo;          (* '.hero-logo' *)
  (* LogoTransition *)
  overlay : list Element;              (* children of this.overlay *)
  transitionLogo : option nat;         (* this.transitionLogo *)
  isTransitioning : bool;
  listening : bool;                    (* click handlers attached *)
  debugPanel : bool;                   (* inspector built and wired *)
  (* event loop *)
  pending : list Task;
  next_id : nat
}.

(** What the browser reports when the program asks. *)
Record Env : Type := mkEnv {
  now : Z;                   (* Date.now() *)
  innerWidth : number;
  innerHeight : number;
  heroRect : Rect            (* heroLogo.getBoundingClientRect() *)
}.

Definition set_sessionStorage v (s : State) : State :=
  mkState v (location s) (body_transitioning s) (body_backgroundColor s)
    (transition_color s) (servicePage s) (heroLogo s) (overlay s)
    (transitionLogo s) (isTransitioning s) (listening s) (debugPanel s)
    (pending s) (next_id s).
Definition set_location v (s : State) : State :=
  mkState (sessionStorage s) v (body_transitioning s) (body_backgroundColor s)
    (transition_color s) (servicePage s) (heroLogo s) (overlay s)
    (transitionLogo s) (isTransitioning s) (listening s) (debugPanel s)
    (pending s) (next_id s).
Definition set_body_transitioning v (s : State) : State :=
  mkState (sessionStorage s) (location s) v (body_backgroundColor s)
    (transition_color s) (servicePage s) (heroLogo s) (overlay s)
    (transitionLogo s) (isTransitioning s) (listening s) (debugPanel s)
    (pending s) (next_id s).
Definition set_body_backgroundColor v (s : State) : State :=
  mkState (sessionStorage s) (location s) (body_transitioning s) v
    (transition_color s) (servicePage s) (heroLogo s) (overlay s)
    (transitionLogo s) (isTransitioning s) (listening s) (debugPanel s)
    (pending s) (next_id s).
Definition set_transition_color v (s : State) : State :=
  mkState (sessionStorage s) (location s) (body_transitioning s)
    (body_backgroundColor s) v (servicePage s) (heroLogo s) (overlay s)
    (transitionLogo s) (isTransitioning s) (listening s) (debugPanel s)
    (pending s) (next_id s).
Definition set_servicePage v (s : State) : State :=
  mkState (sessionStorage s) (location s) (body_transitioning s)
    (body_backgroundColor s) (transition_color s) v (heroLogo s) (overlay s)
    (transitionLogo s) (isTransitioning s) (listening s) (debugPanel s)
    (pending s) (next_id s).
Definition set_heroLogo v (s : State) : State :=
  mkState (sessionStorage s) (location s) (body_transitioning s)
    (body_backgroundColor s) (transition_color s) (servicePage s) v (overlay s)
    (transitionLogo s) (isTransitioning s) (listening s) (debugPanel s)
    (pending s) (next_id s).
Definition set_overlay v (s : State) : State :=
  mkState (sessionStorage s) (location s) (body_transitioning s)
    (body_backgroundColor s) (transition_color s) (servicePage s) (heroLogo s) v
    (transitionLogo s) (isTransitioning s) (listening s) (debugPanel s)
    (pending s) (next_id s).
Definition set_transitionLogo v (s : State) : State :=
  mkState (sessionStorage s) (location s) (body_transitioning s)
    (body_backgroundColor s) (transition_color s) (servicePage s) (heroLogo s)
    (overlay s) v (isTransitioning s) (listening s) (debugPanel s)
    (pending s) (next_id s).
Definition set_isTransitioning v (s : State) : State :=
  mkState (sessionStorage s) (location s) (body_transitioning s)
    (body_backgroundColor s) (transition_color s) (servicePage s) (heroLogo s)
    (overlay s) (transitionLogo s) v (listening s) (debugPanel s)
    (pending s) (next_id s).
Definition set_listening v (s : State) : State :=
  mkState (sessionStorage s) (location s) (body_transitioning s)
    (body_backgroundColor s) (transition_color s) (servicePage s) (heroLogo s)
    (overlay s) (transitionLogo s) (isTransitioning s) v (debugPanel s)
    (pending s) (next_id s).
Definition set_debugPanel v (s : State) : State :=
  mkState (sessionStorage s) (location s) (body_transitioning s)
    (body_backgroundColor s) (transition_color s) (servicePage s) (heroLogo s)
    (overlay s) (transitionLogo s) (isTransitioning s) (listening s) v
    (pending s) (next_id s).
Definition set_pending v (s : State) : State :=
  mkState (sessionStorage s) (location s) (body_transitioning s)
    (body_backgroundColor s) (transition_color s) (servicePage s) (heroLogo s)
    (overlay s) (transitionLogo s) (isTransitioning s) (listening s)
    (debugPanel s) v (next_id s).
Definition set_next_id v (s : State) : State :=
  mkState (sessionStorage s) (location s) (body_transitioning s)
    (body_backgroundColor s) (transition_color s) (servicePage s) (heroLogo s)
    (overlay s) (transitionLogo s) (isTransitioning s) (listening s)
    (debugPanel s) (pending s) v.

(** ** Computations that read and write the state and may throw *)

Inductive Error : Type := TypeError | SyntaxError.

Inductive Result (A : Type) : Type :=
| Ok (a : A)
| Throw (e : Error).
Arguments Ok {A} a.
Arguments Throw {A} e.

Definition M (A : Type) : Type := State -> Result A * State.

Definition ret {A} (a : A) : M A := fun s => (Ok a, s).
Definition throw {A} (e : Error) : M A := fun s => (Throw e, s).
Definition bind {A B} (m : M A) (f : A -> M B) : M B :=
  fun s => match m s with
           | (Ok a, s') => f a s'
           | (Throw e, s') => (Throw e, s')
           end.
Definition gets {A} (f : State -> A) : M A := fun s => (Ok (f s), s).
Definition modify (f : State -> State) : M unit := fun s => (Ok tt, f s).

Declare Scope js_scope.
Delimit Scope js_scope with js.
Notation "'let*' x := m 'in' k" := (bind m (fun x => k))
  (at level 10, x name, m at level 100, k at level 200) : js_scope.
Notation "m ;; k" := (bind m (fun _ => k))
  (at level 100, k at level 200, right associativity) : js_scope.
Local Open Scope js_scope.

(** ** Markup of a transition-enabled link *)

Record LogoWrapper : Type := mkWrapper {
  svg : option string;        (* outerHTML of the first svg inside, if any *)
  boundingRect : Rect         (* getBoundingClientRect() *)
}.

(** An element matching ['.service-link[data-service]']. *)
Record Link : Type := mkLink {
  href : option string;
  data_service : string;
  data_color : option string;
  data_scale : option string;
  data_offset_x : option string;
  data_offset_y : option string;
  logoWrapper : option LogoWrapper   (* querySelector('.logo-wrapper') *)
}.

Record ServiceData : Type := mkServiceData {
  serviceName : string;
  fillColor : string;
  svgContent : string;
  rect : Rect;
  scale : number;
  offsetX : number;
  offsetY : number
}.

(** ** The class [LogoTransition] *)

(** [this.config] and [this.defaults], set once in the constructor. *)
Definition expandDuration : Z := 800.
Definition shrinkDuration : Z := 600.
Definition defaults_scale : number := n15.
Definition defaults_offsetX : number := n0.
Definition defaults_offsetY : number := n0.
Definition default_color : string := "#6366f1".

(** [a || b] where [a] is a [dataset] string or [undefined]. *)
Definition str_or (a : option string) (b : string) : string :=
  match a with
  | Some s => if String.eqb s "" then b else s
  | None => b
  end.

Definition createOverlay : M unit := modify (set_overlay []).

(** Lines 68-89.  Dereferencing a missing wrapper or svg throws. *)
Definition getServiceData (link : Link) : M ServiceData :=
  match logoWrapper link with
  | None => throw TypeError
  | Some w =>
      let serviceName := data_service link in
      let fillColor := str_or (data_color link) default_color in
      let scale := num_or (parseFloat (data_scale link)) defaults_scale in
      let offsetX := num_or (parseFloat (data_offset_x link)) defaults_offsetX in
      let offsetY := num_or (parseFloat (data_offset_y link)) defaults_offsetY in
      match svg w with
      | None => throw TypeError
      | Some outerHTML =>
          ret (mkServiceData serviceName fillColor outerHTML (boundingRect w)
                 scale offsetX offsetY)
      end
  end.

(** [document.createElement('div')] with its content and style, appended to
    the overlay and stored in [this.transitionLogo]. *)
Definition appendLogo (html : jsval) (box : Rect) : M unit :=
  let* id := gets next_id in
  modify (set_next_id (S id));;
  modify (set_transitionLogo (Some id));;
  let* children := gets overlay in
  modify (set_overlay (children ++ [mkElement id html box])).

(** Lines 115-129. *)
Definition createTransitionLogo (serviceData : ServiceData) : M unit :=
  appendLogo (VStr (svgContent serviceData)) (rect serviceData).

Definition boxFrame (r : Rect) : Keyframe := mkKeyframe (Some r) (Fin 1).

(** [this.transitionLogo.animate(frames, {duration})] with the code that
    runs when it finishes. *)
Definition animate (from to : Keyframe) (duration : Z) (k : Kont) : M unit :=
  let* logo := gets transitionLogo in
  match logo with
  | None => throw TypeError
  | Some el =>
      let* id := gets next_id in
      modify (set_next_id (S id));;
      let* tasks := gets pending in
      modify (set_pending (tasks ++ [mkTask id (Animation el from to duration) k]))
  end.

(** [setTimeout(resolve, ms)] of [delay], with the awaiting code. *)
Definition delay (ms : Z) (k : Kont) : M unit :=
  let* id := gets next_id in
  modify (set_next_id (S id));;
  let* tasks := gets pending in
  modify (set_pending (tasks ++ [mkTask id (Timeout ms) k])).

(** Lines 132-148 of [expandLogo]: the last keyframe of the expansion. *)
Definition expandTarget (env : Env) (serviceData : ServiceData) : Rect :=
  let vw := innerWidth env in
  let vh := innerHeight env in
  let rect := rect serviceData in
  let logoSize := Num.max (r_width rect) (r_height rect) in
  let maxDimension := Num.max vw vh in
  let targetScale := scale serviceData in
  let finalSize := (logoSize * targetScale)%num in
  let offsetPixelsX := ((offsetX serviceData / n100) * vw)%num in
  let offsetPixelsY := ((offsetY serviceData / n100) * vh)%num in
  let centerX := (vw / n2 - finalSize / n2 + offsetPixelsX)%num in
  let centerY := (vh / n2 - finalSize / n2 + offsetPixelsY)%num in
  mkRect centerX centerY finalSize finalSize.

(** Lines 131-175; [k] is the code awaiting the returned promise. *)
Definition expandLogo (env : Env) (serviceData : ServiceData) (k : Kont) : M unit :=
  animate (boxFrame (rect serviceData)) (boxFrame (expandTarget env serviceData))
    expandDuration k.

(** The record written by [JSON.stringify] at lines 100-108. *)
Definition handoff (env : Env) (serviceData : ServiceData) : JObject :=
  list_to_map
    [ ("fillColor", JStr (fillColor serviceData));
      ("serviceName", JStr (serviceName serviceData));
      ("svgContent", JStr (svgContent serviceData));
      ("scale", json_of_number (scale serviceData));
      ("offsetX", json_of_number (offsetX serviceData));
      ("offsetY", json_of_number (offsetY serviceData));
      ("timestamp", JNum (inject_Z (now env))) ].

(** Lines 91-113, up to the [await]; the assignment to [location.href] is
    the continuation [AfterExpand]. *)
Definition startTransition (env : Env) (targetUrl : jsval)
    (serviceData : ServiceData) : M unit :=
  modify (set_isTransitioning true);;
  modify (set_body_transitioning true);;
  modify (set_transition_color (Some (VStr (fillColor serviceData))));;
  modify (set_body_backgroundColor (VStr (fillColor serviceData)));;
  modify (set_sessionStorage (Some (JSONObject (handoff env serviceData))));;
  createTransitionLogo serviceData;;
  expandLogo env serviceData (AfterExpand targetUrl).

(** [link.getAttribute('href')]: the attribute, or [null]. *)
Definition getAttribute_href (link : Link) : jsval :=
  match href link with Some u => VStr u | None => VNull end.

(** The click listener installed by [attachLinkHandlers] (lines 56-64). *)
Definition onClick (env : Env) (link : Link) : M unit :=
  let* busy := gets isTransitioning in
  if busy then ret tt
  else
    let targetUrl := getAttribute_href link in
    let* serviceData := getServiceData link in
    startTransition env targetUrl serviceData.

Definition attachLinkHandlers : M unit := modify (set_listening true).

(** Lines 225-241 of [createExpandedOverlay]: the box at which the clone
    is placed on the destination page. *)
Definition expandedBox (env : Env) (data : JObject) : Rect :=
  let vw := innerWidth env in
  let vh := innerHeight env in
  let logoSize := n64 in
  let scale := ToNumber (js_or (prop data "scale") (VNum defaults_scale)) in
  let expandedSize := (logoSize * scale)%num in
  let offsetPixelsX :=
    ((ToNumber (js_or (prop data "offsetX") (VNum n0)) / n100) * vw)%num in
  let offsetPixelsY :=
    ((ToNumber (js_or (prop data "offsetY") (VNum n0)) / n100) * vh)%num in
  let centerX := (vw / n2 - expandedSize / n2 + offsetPixelsX)%num in
  let centerY := (vh / n2 - expandedSize / n2 + offsetPixelsY)%num in
  mkRect centerX centerY expandedSize expandedSize.

(** Lines 224-251. *)
Definition createExpandedOverlay (env : Env) (data : JObject) : M unit :=
  appendLogo (prop data "svgContent") (expandedBox env data).

(** Lines 254-264 of [shrinkLogo]: the first keyframe of the shrink. *)
Definition shrinkStart (env : Env) (data : JObject) : Rect :=
  let vw := innerWidth env in
  let vh := innerHeight env in
  let logoSize := n64 in
  let scale := ToNumber (js_or (prop data "scale") (VNum defaults_scale)) in
  let expandedSize := (logoSize * scale)%num in
  let offsetPixelsX :=
    ((ToNumber (js_or (prop data "offsetX") (VNum n0)) / n100) * vw)%num in
  let offsetPixelsY :=
    ((ToNumber (js_or (prop data "offsetY") (VNum n0)) / n100) * vh)%num in
  let centerX := (vw / n2 - expandedSize / n2 + offsetPixelsX)%num in
  let centerY := (vh / n2 - expandedSize / n2 + offsetPixelsY)%num in
  mkRect centerX centerY expandedSize expandedSize.

(** Lines 253-299: the shrink animation; its [onfinish] handler is
    [ShrinkFinished k]. *)
Definition shrinkLogo (env : Env) (targetRect : Rect) (data : JObject)
    (k : Kont) : M unit :=
  animate (boxFrame (shrinkStart env data)) (boxFrame targetRect)
    shrinkDuration (ShrinkFinished k).

Definition fadeOut (k : Kont) : M unit :=
  animate (mkKeyframe None (Fin 1)) (mkKeyframe None n0) 200 k.

(** Lines 599-605. *)
Definition cleanup : M unit :=
  let* logo := gets transitionLogo in
  match logo with
  | Some el =>
      let* children := gets overlay in
      modify (set_overlay (filter (fun e => el_id e ≠ el) children));;
      modify (set_transitionLogo None)
  | None => ret tt
  end;;
  modify (set_isTransitioning false).

Definition onHero (f : HeroLogo -> HeroLogo) : M unit :=
  let* h := gets heroLogo in modify (set_heroLogo (f <$> h)).

(** Lines 200-208, up to the first [await]. *)
Definition completeTransition (env : Env) (data : JObject) : M unit :=
  modify (set_body_transitioning true);;
  modify (set_body_backgroundColor (prop data "fillColor"));;
  onHero (fun h => mkHero "0" (hero_visible h));;
  createExpandedOverlay env data;;
  delay 50 (AfterSettle data).

(** Lines 213-221. *)
Definition revealHero : M unit :=
  onHero (fun h => mkHero (hero_opacity h) true);;
  onHero (fun h => mkHero "" (hero_visible h));;
  let* p := gets servicePage in
  modify (set_servicePage ((fun _ => true) <$> p));;
  modify (set_body_backgroundColor (VStr ""));;
  cleanup;;
  modify (set_body_transitioning false).

(** Lines 178-190 of [checkIncomingTransition]: read the item, parse it,
    test its age and remove it.  Returns the parsed object when it passes
    the age test. *)
Definition takeIfFresh (env : Env) : M (option JObject) :=
  let* transitionData := gets sessionStorage in
  match transitionData with
  | None => ret None
  | Some text =>
      if text_is_empty text then ret None
      else
        match text with
        | NotJSON _ => throw SyntaxError          (* JSON.parse *)
        | JSONNull => throw TypeError             (* data.timestamp *)
        | JSONObject data =>
            let timeSinceTransition :=
              (Num.of_Z (now env) - ToNumber (prop data "timestamp"))%num in
            if (timeSinceTransition > n3000)%num then
              modify (set_sessionStorage None);;
              ret None
            else
              modify (set_sessionStorage None);;
              ret (Some data)
        end
  end.

(** An [async] method called without [await]: the caller goes on whether
    or not the body throws. *)
Definition detached (m : M unit) : M unit :=
  fun s => (Ok tt, snd (m s)).

(** Lines 177-198. *)
Definition checkIncomingTransition (env : Env) : M unit :=
  let* incoming := takeIfFresh env in
  match incoming with
  | None => ret tt
  | Some data =>
      let* page := gets servicePage in
      let* hero := gets heroLogo in
      match page, hero with
      | Some _, Some _ => detached (completeTransition env data)
      | _, _ => ret tt
      end
  end.

Definition createDebugPanel : M unit := modify (set_debugPanel true).

(** Lines 38-44; the keyboard shortcut is not modelled. *)
Definition init (env : Env) : M unit :=
  createOverlay;;
  checkIncomingTransition env;;
  attachLinkHandlers;;
  createDebugPanel.

(** Lines 527-553, up to the first [await]. *)
Definition previewTransition (env : Env) (link : Link) : M unit :=
  let* serviceData := getServiceData link in
  createTransitionLogo serviceData;;
  modify (set_body_transitioning true);;
  modify (set_body_backgroundColor (VStr (fillColor serviceData)));;
  let vw := innerWidth env in
  let vh := innerHeight env in
  let rect := rect serviceData in
  let logoSize := Num.max (r_width rect) (r_height rect) in
  let targetScale := scale serviceData in
  let finalSize := (logoSize * targetScale)%num in
  let offsetPixelsX := ((offsetX serviceData / n100) * vw)%num in
  let offsetPixelsY := ((offsetY serviceData / n100) * vh)%num in
  let centerX := (vw / n2 - finalSize / n2 + offsetPixelsX)%num in
  let centerY := (vh / n2 - finalSize / n2 + offsetPixelsY)%num in
  let target := mkRect centerX centerY finalSize finalSize in
  animate (boxFrame rect) (boxFrame target) 600 (PreviewExpanded rect target).

(** The code resumed when a wake-up fires. *)
Definition resume (env : Env) (k : Kont) : M unit :=
  match k with
  | AfterExpand targetUrl => modify (set_location (Some targetUrl))
  | AfterSettle data => shrinkLogo env (heroRect env) data AfterShrink
  | ShrinkFinished k' => fadeOut k'
  | AfterShrink => revealHero
  | PreviewExpanded rect target => delay 500 (PreviewHeld rect target)
  | PreviewHeld rect target =>
      animate (boxFrame target) (boxFrame rect) 600 PreviewShrunk
  | PreviewShrunk =>
      cleanup;;
      modify (set_body_backgroundColor (VStr ""));;
      modify (set_body_transitioning false)
  end.

(** ** Events *)

Inductive Event : Type :=
| Click (link : Link)       (* a click on a transition-enabled link *)
| Preview (link : Link)     (* the inspector's Preview button *)
| Fire (id : nat).          (* the animation or timer [id] completes *)

Definition findTask (id : nat) (tasks : list Task) : option Task :=
  find (fun t => Nat.eqb (task_id t) id) tasks.

Definition dropTask (id : nat) (tasks : list Task) : list Task :=
  filter (fun t => task_id t ≠ id) tasks.

(** One turn of the event loop.  The result is [Throw] when the turn ends
    in an uncaught exception or a rejected promise. *)
Definition step (env : Env) (e : Event) : M unit :=
  match e with
  | Click link =>
      let* on := gets listening in
      if on then onClick env link else ret tt
  | Preview link =>
      let* on := gets debugPanel in
      if on then previewTransition env link else ret tt
  | Fire id =>
      let* tasks := gets pending in
      match findTask id tasks with
      | Some t =>
          modify (set_pending (dropTask id tasks));;
          resume env (kont t)
      | None => ret tt
      end
  end.

Fixpoint run (evs : list (Env * Event)) (s : State) : State :=
  match evs with
  | [] => s
  | (env, e) :: rest => run rest (snd (step env e s))
  end.

(** [new LogoTransition()] on DOMContentLoaded, in a document with the
    given markers and the session storage left by the previous document. *)
Definition newDocument (storage : option StoredText) (page : option bool)
    (hero : option HeroLogo) : State :=
  mkState storage None false (VStr "") None page hero
    [] None false false false [] 0.

Definition load (env : Env) (storage : option StoredText) (page : option bool)
    (hero : option HeroLogo) : Result unit * State :=
  init env (newDocument storage page hero).

(** ** States, inputs and predicates used in the statements *)

Definition viewport (vw vh : Q) : Env :=
  mkEnv 0 (Fin vw) (Fin vh) (mkRect n0 n0 n0 n0).

(** What the resolver yields for one numeric attribute. *)
Definition resolved (attr : option string) (default value : number) : Prop :=
  (Num.truthy (parseFloat attr) = true -> value = parseFloat attr) /\
  (parseFloat attr = NaN -> value = default) /\
  (attr = None \/ attr = Some "" -> value = default) /\
  (forall q, parseFloat attr = Fin q -> (q == 0)%Q -> value = default).

Definition plain_wrapper : LogoWrapper :=
  mkWrapper (Some "<svg></svg>") (mkRect (Fin 100) (Fin 200) n64 n64).

Definition plain_link : Link :=
  mkLink (Some "spotify.html") "spotify" (Some "#1DB954") (Some "25")
    (Some "-30") None (Some plain_wrapper).

Definition zero_scale_link : Link :=
  mkLink (Some "spotify.html") "spotify" None (Some "0") None None
    (Some plain_wrapper).

Definition zero_scale_data : JObject :=
  list_to_map [("scale", JNum 0); ("offsetX", JNum 0); ("offsetY", JNum 0)].

(** The expand-phase input with a 64x64 source and the given parameters. *)
Definition base64 (scale offsetX offsetY : number) : ServiceData :=
  mkServiceData "" "" "" (mkRect n0 n0 n64 n64) scale offsetX offsetY.

Definition stored_25 : JObject :=
  list_to_map [("scale", JNum 25); ("offsetX", JNum (-30)); ("offsetY", JNum 0)].

Definition at_time (t : Z) : Env :=
  mkEnv t (Fin 1920) (Fin 1080) (mkRect (Fin 40) (Fin 80) (Fin 120) (Fin 120)).

Definition plain_data : ServiceData :=
  mkServiceData "spotify" "#1DB954" "<svg></svg>"
    (mkRect (Fin 100) (Fin 200) n64 n64) (Fin 25) (Fin (-30)) (Fin 0).

(** The start page after a click on [plain_link] at time 1000. *)
Definition clicked : State :=
  snd (step (at_time 1000) (Click plain_link)
         (snd (load (at_time 0) None None None))).

(** The destination document as the browser hands it to the constructor. *)
Definition arriving : State :=
  set_overlay [] (newDocument (sessionStorage clicked) (Some false)
                    (Some (mkHero "" false))).

(** The states a document goes through: the constructor run on some
    storage and markup, then any sequence of events. *)
Inductive reachable : State -> Prop :=
| reachable_load env storage page hero :
    reachable (snd (load env storage page hero))
| reachable_step env e s :
    reachable s -> reachable (snd (step env e s)).

(** Shape of the parked continuations: navigation waits on an expand
    animation only, and a shrink hands over to the reveal. *)
Definition task_ok (t : Task) : Prop :=
  match kont t with
  | AfterExpand _ =>
      exists el from to, wake t = Animation el from to expandDuration
  | ShrinkFinished k => k = AfterShrink
  | _ => True
  end.

Definition tasks_ok (s : State) : Prop := forall t, t ∈ pending s -> task_ok t.

(** The start page after the inspector's Preview button is pressed twice,
    300ms apart. *)
Definition double_preview : State :=
  run [(at_time 100, Preview plain_link); (at_time 400, Preview plain_link)]
    (snd (load (at_time 0) None None None)).

(** The same page once every animation and timer of both previews has
    completed. *)
Definition double_preview_settled : State :=
  run [(at_time 700, Fire 1); (at_time 1000, Fire 3); (at_time 1200, Fire 4);
       (at_time 1500, Fire 5); (at_time 1800, Fire 6); (at_time 2100, Fire 7)]
    double_preview.

(** ** The expand formula on machine floats *)

Module Binary64.
Import PrimFloat.
Local Open Scope float_scope.

(** [Math.max(a, b)] *)
Definition max (a b : float) : float :=
  if (is_nan a || is_nan b)%bool then nan
  else if a <? b then b
  else if b <? a then a
  else match classify a with FloatClass.NZero => b | _ => a end.

(** Lines 132-148 of [expandLogo] in binary64: the left edge, the top edge
    and the side of the last keyframe. *)
Definition expandTarget (width height scale offsetX offsetY vw vh : float)
  : float * float * float :=
  let logoSize := max width height in
  let targetScale := scale in
  let finalSize := logoSize * targetScale in
  let offsetPixelsX := (offsetX / 100) * vw in
  let offsetPixelsY := (offsetY / 100) * vh in
  let centerX := vw / 2 - finalSize / 2 + offsetPixelsX in
  let centerY := vh / 2 - finalSize / 2 + offsetPixelsY in
  (centerX, centerY, finalSize).

End Binary64.

(** ** The inspector: keyboard shortcut and slider wiring *)

(** [s.toLowerCase()] on the ASCII letters; other bytes are left alone,
    which does not matter for a comparison with ["d"]. *)
Definition lower (c : ascii) : ascii :=
  let n := nat_of_ascii c in
  if ((65 <=? n)%nat && (n <=? 90)%nat)%bool then ascii_of_nat (n + 32) else c.

Fixpoint toLowerCase (s : string) : string :=
  match s with
  | String c r => String (lower c) (toLowerCase r)
  | EmptyString => EmptyString
  end.

Record KeyEvent : Type := mkKey {
  key : string;
  ctrlKey : bool;
  metaKey : bool;
  tagName : option string      (* e.target.tagName, if the target has one *)
}.

(** [this.debugMode] and the 'visible' class of [this.debugPanel]. *)
Record Inspector : Type := mkInspector {
  debugMode : bool;
  panel_visible : bool
}.

(** The inspector as [createDebugPanel] leaves it. *)
Definition closedInspector : Inspector := mkInspector false false.

(** The keydown listener of [attachKeyboardShortcuts] (lines 588-596). *)
Definition onKeydown (e : KeyEvent) (p : Inspector) : Inspector :=
  if (String.eqb (toLowerCase (key e)) "d" && negb (ctrlKey e)
      && negb (metaKey e))%bool
  then
    if match tagName e with
       | Some t => (String.eqb t "INPUT" || String.eqb t "TEXTAREA")%bool
       | None => false
       end
    then p
    else
      let debugMode' := negb (debugMode p) in
      mkInspector debugMode' debugMode'
  else p.

(** Lines 516-525, on the link the selector finds: the three slider values
    (strings) become the link's attributes. *)
Definition updateLogoSettings (scaleValue offsetXValue offsetYValue : string)
    (link : Link) : Link :=
  mkLink (href link) (data_service link) (data_color link)
    (Some scaleValue) (Some offsetXValue) (Some offsetYValue)
    (logoWrapper link).

(** The decimal numeral of an integer, which is what a range input whose
    position is that integer reports as its [value]. *)
Definition digitChar (d : Z) : ascii := ascii_of_nat (Z.to_nat (48 + d)).

Fixpoint natDigits (fuel : nat) (n : Z) (acc : string) : string :=
  match fuel with
  | O => acc
  | S fuel' =>
      let acc' := String (digitChar (n mod 10)) acc in
      if n <? 10 then acc' else natDigits fuel' (n / 10) acc'
  end.

Definition integerString (z : Z) : string :=
  if z <? 0
  then String "-" (natDigits (S (Z.to_nat (Z.log2 (- z)))) (- z) "")
  else natDigits (S (Z.to_nat (Z.log2 z))) z "".

(** ** Further predicates and inputs used in the statements *)

(** The link has a '.logo-wrapper' with an svg inside. *)
Definition has_logo (link : Link) : bool :=
  match logoWrapper link with
  | Some w => match svg w with Some _ => true | None => false end
  | None => false
  end.

Definition is_finite (n : number) : bool :=
  match n with Fin _ => true | _ => false end.

Definition bare_link : Link :=
  mkLink (Some "about.html") "about" None None None None None.

(** A continuation that never assigns [location.href]. *)
Fixpoint quiet (k : Kont) : Prop :=
  match k with
  | AfterExpand _ => False
  | ShrinkFinished k' => quiet k'
  | _ => True
  end.

Definition is_click (ev : Env * Event) : Prop :=
  match snd ev with Click _ => True | _ => False end.

(** No navigation has been requested and none is waiting. *)
Definition stays (s : State) : Prop :=
  location s = None /\ forall t, t ∈ pending s -> quiet (kont t).

(** [this.transitionLogo], when set, is a child of the overlay, and it is
    set whenever a transition is in flight. *)
Definition logo_attached (s : State) : Prop :=
  (forall id, transitionLogo s = Some id ->
              exists el, el ∈ overlay s /\ el_id el = id) /\
  (isTransitioning s = true -> is_Some (transitionLogo s)).

(** The parked tasks carry pairwise distinct ids, all handed out already. *)
Definition ids_ok (s : State) : Prop :=
  NoDup (task_id <$> pending s) /\
  forall t, t ∈ pending s -> (task_id t < next_id s)%nat.

(** A key press that reaches the toggle. *)
Definition toggles (e : KeyEvent) : bool :=
  ((String.eqb (key e) "d" || String.eqb (key e) "D")
   && negb (ctrlKey e) && negb (metaKey e)
   && negb (match tagName e with
            | Some t => String.eqb t "INPUT" || String.eqb t "TEXTAREA"
            | None => false
            end))%bool.

(** * Properties *)

(** ** The model on concrete inputs *)

Example parseFloat_examples :
  parseFloat (Some "25") = Fin 25 /\
  parseFloat (Some "-30") = Fin (-30) /\
  parseFloat (Some "  1.5px") = Fin (3 # 2) /\
  parseFloat (Some "1e3") = Fin 1000 /\
  parseFloat (Some ".5e-1") = Fin (1 # 20) /\
  parseFloat (Some "0.0") = Fin 0 /\
  parseFloat (Some "-Infinity") = Inf true /\
  parseFloat (Some "") = NaN /\
  parseFloat (Some "px12") = NaN /\
  parseFloat None = NaN.
Proof. repeat split. Qed.

Example ToNumber_examples :
  ToNumber (VStr " 12 ") = Fin 12 /\
  ToNumber (VStr "12px") = NaN /\
  ToNumber (VStr "0x1F") = Fin 31 /\
  ToNumber (VStr "") = Fin 0 /\
  ToNumber VNull = Fin 0 /\
  ToNumber VUndefined = NaN.
Proof. repeat split. Qed.

(** A click at time 1000, then the destination page loaded one second
    later: the record is replayed, and when the settle delay, the shrink
    and the fade have completed the hero and the page are visible, the
    overlay is empty and nothing is left in the storage. *)
Example transition_end_to_end :
  let final :=
    run [(at_time 2050, Fire 1); (at_time 2650, Fire 2); (at_time 2850, Fire 3)]
      (snd (load (at_time 2000) (sessionStorage clicked) (Some false)
              (Some (mkHero "" false)))) in
  heroLogo final = Some (mkHero "" true) /\
  servicePage final = Some true /\
  overlay final = [] /\
  transitionLogo final = None /\
  isTransitioning final = false /\
  body_transitioning final = false /\
  sessionStorage final = None /\
  pending final = [].
Proof. repeat split. Qed.

(** The same load four seconds after the click: nothing is replayed and
    the storage is emptied. *)
Example transition_expired :
  let late :=
    snd (load (at_time 5000) (sessionStorage clicked) (Some false)
           (Some (mkHero "" false))) in
  heroLogo late = Some (mkHero "" false) /\
  overlay late = [] /\
  pending late = [] /\
  sessionStorage late = None.
Proof. repeat split. Qed.

(** ** Arithmetic helpers *)

Lemma Qzero_true (q : Q) : Num.Qzero q = true <-> (q == 0)%Q.
Proof.
  unfold Num.Qzero, Qeq. cbn. rewrite Z.mul_1_r, Z.eqb_eq. reflexivity.
Qed.

Lemma Qzero_false (q : Q) : Num.Qzero q = false <-> ~ (q == 0)%Q.
Proof.
  rewrite <- Qzero_true. destruct (Num.Qzero q); split; congruence.
Qed.

Lemma Fin_Qred_eq (p q : Q) : (p == q)%Q -> Fin (Qred p) = Fin (Qred q).
Proof. intros H. f_equal. now apply Qred_complete. Qed.

(** A zero numerator divided by a literal is the literal zero of the model. *)
Lemma div_zero_literal (q d : Q) :
  Num.Qzero q = true -> Num.Qzero d = false -> (Fin q / Fin d)%num = (n0 / Fin d)%num.
Proof.
  intros Hq Hd. unfold n0, Num.div. rewrite Hd.
  apply Fin_Qred_eq. apply Qzero_true in Hq. rewrite Hq. reflexivity.
Qed.

(** ** Geometry of the expand phase *)

Lemma plus_zero_offset a b v :
  ((a - b) + Fin 0 / Fin 100 * Fin v)%num = (a - b)%num.
Proof.
  destruct a as [| x | p], b as [| y | q]; try reflexivity.
  - destruct x, y; reflexivity.
  - cbn -[Qred Qmult Qplus Qminus Qdiv]. apply Fin_Qred_eq.
    rewrite !Qred_correct. field.
Qed.

Section Binary64Arithmetic.
Import PrimFloat.

(** C3, as stated, fails in the arithmetic of the code.  On machine floats
    the formula gives side 960, left 480, top 60 for the example (and the
    values of the two other examples below), but for a 64x64 source at
    scale 1e16 in a 1366-wide viewport with zero offsets the subtraction
    [vw/2 - finalSize/2] is rounded, and the middle of the box,
    [left + size/2], is 704 and not 683. *)
Lemma expandTarget_binary64_off_centre :
  (Binary64.expandTarget 64 64 15 0 0 1920 1080 = (480, 60, 960) /\
   Binary64.expandTarget 48 64 15 25 (-50) 1920 1080 = (960, -480, 960) /\
   Binary64.expandTarget 128 32 10 (-25) 50 1000 800 = (-390, 160, 1280) /\
   let '(x, _, size) := Binary64.expandTarget 64 64 1e16 0 0 1366 768 in
   x + size / 2 = 704 /\
   1366 / 2 = 683 /\
   (x + size / 2 =? 1366 / 2) = false)%float.
Proof. vm_compute. repeat split. Qed.

End Binary64Arithmetic.

(** C3, amended.  [expandLogo] animates the clone, over 800 ms, from its
    rectangle to the square of side
    [finalSize = max(rect.width, rect.height) * scale] whose left edge is
    [vw/2 - finalSize/2 + offsetX/100*vw] and whose top edge is
    [vh/2 - finalSize/2 + offsetY/100*vh]; the larger side is the one
    multiplied; for a 64x64 source, scale 15, no offsets and a 1920x1080
    viewport that is side 960 at left 480, top 60; and with zero offsets
    and a finite viewport the offset terms vanish, so the edges are
    [vw/2 - finalSize/2] and [vh/2 - finalSize/2]: the box is centred up to
    the rounding of that subtraction. *)
Theorem expandLogo_target :
  (forall env serviceData k s,
     let finalSize :=
       (Num.max (r_width (rect serviceData)) (r_height (rect serviceData))
        * scale serviceData)%num in
     let targetLeft :=
       (innerWidth env / Fin 2 - finalSize / Fin 2
        + offsetX serviceData / Fin 100 * innerWidth env)%num in
     let targetTop :=
       (innerHeight env / Fin 2 - finalSize / Fin 2
        + offsetY serviceData / Fin 100 * innerHeight env)%num in
     let target := mkRect targetLeft targetTop finalSize finalSize in
     expandTarget env serviceData = target /\
     pending (snd (expandLogo env serviceData k s)) =
       pending s ++
       match transitionLogo s with
       | Some el =>
           [mkTask (next_id s)
              (Animation el (mkKeyframe (Some (rect serviceData)) (Fin 1))
                 (mkKeyframe (Some target) (Fin 1)) 800) k]
       | None => []
       end) /\
  (forall name color html left top (w h : Q) sc ox oy env,
     r_width
       (expandTarget env
          (mkServiceData name color html (mkRect left top (Fin w) (Fin h))
             sc ox oy))
     = ((if Qle_bool w h then Fin h else Fin w) * sc)%num) /\
  (forall name color html left top,
     expandTarget (viewport 1920 1080)
       (mkServiceData name color html (mkRect left top (Fin 64) (Fin 64))
          (Fin 15) (Fin 0) (Fin 0))
     = mkRect (Fin 480) (Fin 60) (Fin 960) (Fin 960) /\
     expandTarget (viewport 1920 1080)
       (mkServiceData name color html (mkRect left top (Fin 48) (Fin 64))
          (Fin 15) (Fin 25) (Fin (-50)))
     = mkRect (Fin 960) (Fin (-480)) (Fin 960) (Fin 960) /\
     expandTarget (viewport 1000 800)
       (mkServiceData name color html (mkRect left top (Fin 128) (Fin 32))
          (Fin 10) (Fin (-25)) (Fin 50))
     = mkRect (Fin (-390)) (Fin 160) (Fin 1280) (Fin 1280)) /\
  (forall name color html rect sc (vw vh : Q),
     let box :=
       expandTarget (viewport vw vh)
         (mkServiceData name color html rect sc (Fin 0) (Fin 0)) in
     let finalSize := (Num.max (r_width rect) (r_height rect) * sc)%num in
     r_left box = (Fin vw / Fin 2 - finalSize / Fin 2)%num /\
     r_top box = (Fin vh / Fin 2 - finalSize / Fin 2)%num /\
     r_width box = finalSize /\
     r_height box = finalSize).
Proof.
  split; [| split; [| split]].
  - intros env sd k s. cbn zeta. split; [reflexivity |].
    unfold expandLogo, animate, bind, gets, modify, throw.
    destruct (transitionLogo s); cbn; [reflexivity | now rewrite app_nil_r].
  - intros. unfold expandTarget. cbn [r_width r_height rect scale Num.max].
    destruct (Qle_bool w h); reflexivity.
  - intros. repeat split.
  - intros name color html r sc vw vh. cbn zeta.
    unfold expandTarget, viewport.
    cbn [innerWidth innerHeight rect scale offsetX offsetY r_left r_top
           r_width r_height].
    unfold n2, n100. rewrite !plus_zero_offset. repeat split.
Qed.

(** ** The parameter resolver *)

Lemma getServiceData_pure link s d s' :
  getServiceData link s = (Ok d, s') ->
  s' = s /\
  exists w html,
    logoWrapper link = Some w /\ svg w = Some html /\
    d = mkServiceData (data_service link)
          (str_or (data_color link) default_color) html (boundingRect w)
          (num_or (parseFloat (data_scale link)) defaults_scale)
          (num_or (parseFloat (data_offset_x link)) defaults_offsetX)
          (num_or (parseFloat (data_offset_y link)) defaults_offsetY).
Proof.
  unfold getServiceData, ret, throw.
  destruct (logoWrapper link) as [w |]; [| discriminate].
  destruct (svg w) as [html |] eqn:Hsvg; [| discriminate].
  intros H. injection H as <- <-. split; [reflexivity |].
  exists w, html. auto.
Qed.

Lemma num_or_resolved attr default :
  resolved attr default (num_or (parseFloat attr) default).
Proof.
  unfold resolved, num_or. repeat split.
  - intros ->. reflexivity.
  - intros ->. reflexivity.
  - intros [-> | ->]; reflexivity.
  - intros q -> Hq. cbn. apply Qzero_true in Hq. now rewrite Hq.
Qed.

(** C4, as stated, fails: with [data-scale="0"] the attribute parses to the
    number 0, yet the resolver returns 15. *)
Lemma getServiceData_zero_scale_not_parsed :
  parseFloat (data_scale zero_scale_link) = Fin 0 /\
  exists d, (forall s, getServiceData zero_scale_link s = (Ok d, s)) /\
            scale d = Fin 15 /\
            scale d <> parseFloat (data_scale zero_scale_link).
Proof.
  split; [reflexivity |]. eexists. split; [intros s; reflexivity |].
  split; [reflexivity | discriminate].
Qed.

(** C4, amended.  When the resolver returns, it leaves the state alone and
    each numeric field is the parsed attribute if that is a non-zero number,
    and the default (scale 15, offsets 0) if the attribute is absent, empty,
    unparseable or parses to zero; the colour is [data-color], or the fixed
    accent when that is absent or empty. *)
Theorem getServiceData_overrides link s d s' :
  getServiceData link s = (Ok d, s') ->
  s' = s /\
  resolved (data_scale link) (Fin 15) (scale d) /\
  resolved (data_offset_x link) (Fin 0) (offsetX d) /\
  resolved (data_offset_y link) (Fin 0) (offsetY d) /\
  (data_color link = None \/ data_color link = Some "" ->
   fillColor d = "#6366f1") /\
  (forall c, data_color link = Some c -> c <> "" -> fillColor d = c).
Proof.
  intros H. apply getServiceData_pure in H as (-> & w & html & _ & _ & ->).
  cbn [scale offsetX offsetY fillColor].
  repeat split; try apply num_or_resolved.
  - intros [-> | ->]; reflexivity.
  - intros c -> Hc. cbn. destruct (String.eqb_spec c ""); congruence.
Qed.

Lemma getServiceData_overrides_witness :
  let s := newDocument None None None in
  let d := mkServiceData "spotify" "#1DB954" "<svg></svg>"
             (mkRect (Fin 100) (Fin 200) n64 n64) (Fin 25) (Fin (-30)) (Fin 0) in
  getServiceData plain_link s = (Ok d, s) /\
  scale d = parseFloat (Some "25") /\
  offsetX d = parseFloat (Some "-30") /\
  offsetY d = Fin 0 /\
  fillColor d = "#1DB954".
Proof.
  intros s d.
  destruct (getServiceData_overrides plain_link s d s eq_refl)
    as (_ & (Hs & _) & (Hx & _) & (_ & _ & Hy & _) & _ & Hc).
  split; [reflexivity |].
  split; [exact (Hs eq_refl) |].
  split; [exact (Hx eq_refl) |].
  split; [exact (Hy (or_introl eq_refl)) |].
  apply (Hc "#1DB954"); [reflexivity | discriminate].
Defined.

(** C10.  An attribute that parses to the number 0 gives scale 15, because
    0 is falsy in [parseFloat(x) || default]; and a stored scale of 0 is
    replaced by 15 in the same way when the destination page places and
    shrinks the clone, which is then 64 * 15 = 960 wide. *)
Theorem zero_scale_becomes_default :
  (forall link s d s' q,
     parseFloat (data_scale link) = Fin q -> (q == 0)%Q ->
     getServiceData link s = (Ok d, s') ->
     scale d = Fin 15) /\
  (forall env (data : JObject) q,
     data !! "scale" = Some (JNum q) -> (q == 0)%Q ->
     js_or (prop data "scale") (VNum defaults_scale) = VNum (Fin 15) /\
     r_width (expandedBox env data) = Fin 960 /\
     r_height (expandedBox env data) = Fin 960 /\
     r_width (shrinkStart env data) = Fin 960 /\
     expandedBox env data = expandedBox env (<["scale" := JNum 15]> data) /\
     shrinkStart env data = shrinkStart env (<["scale" := JNum 15]> data)).
Proof.
  split.
  - intros link s d s' q Hp Hq H.
    apply getServiceData_pure in H as (_ & w & html & _ & _ & ->).
    cbn [scale].
    exact (proj2 (proj2 (proj2 (num_or_resolved (data_scale link) defaults_scale)))
             q Hp Hq).
  - intros env data q Hd Hq.
    assert (Hor : js_or (prop data "scale") (VNum defaults_scale)
                  = VNum (Fin 15)).
    { unfold js_or, prop. rewrite Hd. cbn.
      apply Qzero_true in Hq. now rewrite Hq. }
    assert (Hor' : js_or (prop (<["scale" := JNum 15]> data) "scale")
                     (VNum defaults_scale) = VNum (Fin 15)).
    { unfold js_or, prop. rewrite lookup_insert_eq. reflexivity. }
    assert (Hx : forall key, key <> "scale" ->
                 prop (<["scale" := JNum 15]> data) key = prop data key).
    { intros key Hk. unfold prop. rewrite lookup_insert_ne; congruence. }
    unfold expandedBox, shrinkStart.
    rewrite Hor, Hor', !Hx by discriminate.
    repeat split; reflexivity.
Qed.

Lemma zero_scale_becomes_default_witness :
  let s := newDocument None None None in
  let d := mkServiceData "spotify" "#6366f1" "<svg></svg>"
             (mkRect (Fin 100) (Fin 200) n64 n64) (Fin 15) n0 n0 in
  let data : JObject := {["scale" := JNum 0]} in
  parseFloat (data_scale zero_scale_link) = Fin 0 /\
  getServiceData zero_scale_link s = (Ok d, s) /\
  scale d = Fin 15 /\
  r_width (expandedBox (viewport 1920 1080) data) = Fin 960.
Proof.
  intros s d data.
  split; [reflexivity |]. split; [reflexivity |]. split.
  - exact (proj1 zero_scale_becomes_default zero_scale_link s d s 0%Q
             eq_refl (Qeq_refl 0) eq_refl).
  - exact (proj1 (proj2 (proj2 zero_scale_becomes_default (viewport 1920 1080)
                           data 0%Q eq_refl (Qeq_refl 0)))).
Defined.

(** ** The destination box against the expand formula *)

Lemma stored_offset (data : JObject) key q :
  data !! key = Some (JNum q) ->
  (ToNumber (js_or (prop data key) (VNum n0)) / n100)%num = (Fin q / n100)%num.
Proof.
  intros H. unfold js_or, prop. rewrite H. cbn [of_json ToBoolean Num.truthy].
  destruct (Num.Qzero q) eqn:Hq; cbn [negb ToNumber]; [| reflexivity].
  symmetry. now apply div_zero_literal.
Qed.

Lemma stored_scale (data : JObject) q :
  data !! "scale" = Some (JNum q) -> ~ (q == 0)%Q ->
  ToNumber (js_or (prop data "scale") (VNum defaults_scale)) = Fin q.
Proof.
  intros H Hq. unfold js_or, prop. rewrite H. cbn [of_json ToBoolean Num.truthy].
  apply Qzero_false in Hq. rewrite Hq. reflexivity.
Qed.

(** C8, as stated, fails: for a stored scale of 0 the destination page
    places the clone at the 960-wide box of the default scale, while the
    expand formula on a 64-unit base gives an empty box. *)
Lemma expandedBox_zero_scale_differs :
  expandedBox (viewport 1920 1080) zero_scale_data
    = mkRect (Fin 480) (Fin 60) (Fin 960) (Fin 960) /\
  expandTarget (viewport 1920 1080) (base64 (Fin 0) (Fin 0) (Fin 0))
    = mkRect (Fin 960) (Fin 540) (Fin 0) (Fin 0) /\
  expandedBox (viewport 1920 1080) zero_scale_data
    <> expandTarget (viewport 1920 1080) (base64 (Fin 0) (Fin 0) (Fin 0)).
Proof.
  assert (H1 : expandedBox (viewport 1920 1080) zero_scale_data
               = mkRect (Fin 480) (Fin 60) (Fin 960) (Fin 960))
    by (vm_compute; reflexivity).
  assert (H2 : expandTarget (viewport 1920 1080) (base64 (Fin 0) (Fin 0) (Fin 0))
               = mkRect (Fin 960) (Fin 540) (Fin 0) (Fin 0))
    by (vm_compute; reflexivity).
  split; [exact H1 |]. split; [exact H2 |].
  rewrite H1, H2. discriminate.
Qed.

(** C8, amended.  For a stored record whose scale is a non-zero number and
    whose offsets are numbers, the box at which [createExpandedOverlay]
    places the clone (and from which [shrinkLogo] starts) is the box
    [expandLogo] computes for the same scale, offsets and viewport from a
    source whose larger side is 64. *)
Theorem expandedBox_matches_expandTarget env (data : JObject) serviceData sc ox oy :
  data !! "scale" = Some (JNum sc) -> ~ (sc == 0)%Q ->
  data !! "offsetX" = Some (JNum ox) ->
  data !! "offsetY" = Some (JNum oy) ->
  scale serviceData = Fin sc ->
  offsetX serviceData = Fin ox ->
  offsetY serviceData = Fin oy ->
  Num.max (r_width (rect serviceData)) (r_height (rect serviceData)) = n64 ->
  expandedBox env data = expandTarget env serviceData /\
  shrinkStart env data = expandTarget env serviceData.
Proof.
  intros Hs Hnz Hx Hy Es Ex Ey Em.
  unfold expandedBox, shrinkStart, expandTarget. cbn zeta.
  rewrite (stored_scale data sc Hs Hnz).
  rewrite (stored_offset data "offsetX" ox Hx).
  rewrite (stored_offset data "offsetY" oy Hy).
  rewrite Es, Ex, Ey, Em. split; reflexivity.
Qed.

Lemma expandedBox_matches_expandTarget_witness :
  expandedBox (viewport 1920 1080) stored_25
  = expandTarget (viewport 1920 1080) (base64 (Fin 25) (Fin (-30)) (Fin 0)).
Proof.
  refine (proj1 (expandedBox_matches_expandTarget (viewport 1920 1080) stored_25
                   (base64 (Fin 25) (Fin (-30)) (Fin 0)) 25 (-30) 0
                   eq_refl _ eq_refl eq_refl eq_refl eq_refl eq_refl eq_refl)).
  discriminate.
Defined.

(** In particular the record written by [startTransition] for finite
    parameters is placed, on arrival, where the expand formula puts a
    64-unit source. *)
Lemma handoff_box_matches env0 env serviceData sc ox oy :
  scale serviceData = Fin sc -> ~ (sc == 0)%Q ->
  offsetX serviceData = Fin ox ->
  offsetY serviceData = Fin oy ->
  expandedBox env (handoff env0 serviceData)
  = expandTarget env (base64 (Fin sc) (Fin ox) (Fin oy)).
Proof.
  intros Es Hnz Ex Ey.
  assert (Hs : handoff env0 serviceData !! "scale" = Some (JNum sc))
    by (change (Some (json_of_number (scale serviceData)) = Some (JNum sc));
        now rewrite Es).
  assert (Hx : handoff env0 serviceData !! "offsetX" = Some (JNum ox))
    by (change (Some (json_of_number (offsetX serviceData)) = Some (JNum ox));
        now rewrite Ex).
  assert (Hy : handoff env0 serviceData !! "offsetY" = Some (JNum oy))
    by (change (Some (json_of_number (offsetY serviceData)) = Some (JNum oy));
        now rewrite Ey).
  unfold expandedBox, expandTarget. cbn zeta.
  rewrite (stored_scale _ sc Hs Hnz).
  rewrite (stored_offset _ "offsetX" ox Hx), (stored_offset _ "offsetY" oy Hy).
  reflexivity.
Qed.

(** ** Reading the handoff *)

Lemma completeTransition_state env data s :
  completeTransition env data s =
  (Ok tt,
   mkState (sessionStorage s) (location s) true (prop data "fillColor")
     (transition_color s) (servicePage s)
     ((fun h => mkHero "0" (hero_visible h)) <$> heroLogo s)
     (overlay s ++ [mkElement (next_id s) (prop data "svgContent")
                      (expandedBox env data)])
     (Some (next_id s)) (isTransitioning s) (listening s) (debugPanel s)
     (pending s ++ [mkTask (S (next_id s)) (Timeout 50) (AfterSettle data)])
     (S (S (next_id s)))).
Proof. reflexivity. Qed.

Lemma startTransition_state env targetUrl serviceData s :
  startTransition env targetUrl serviceData s =
  (Ok tt,
   mkState (Some (JSONObject (handoff env serviceData))) (location s) true
     (VStr (fillColor serviceData)) (Some (VStr (fillColor serviceData)))
     (servicePage s) (heroLogo s)
     (overlay s ++ [mkElement (next_id s) (VStr (svgContent serviceData))
                      (rect serviceData)])
     (Some (next_id s)) true (listening s) (debugPanel s)
     (pending s ++
      [mkTask (S (next_id s))
         (Animation (next_id s) (boxFrame (rect serviceData))
            (boxFrame (expandTarget env serviceData)) expandDuration)
         (AfterExpand targetUrl)])
     (S (S (next_id s)))).
Proof. reflexivity. Qed.

Lemma handoff_timestamp env serviceData :
  handoff env serviceData !! "timestamp" = Some (JNum (inject_Z (now env))).
Proof. reflexivity. Qed.

Lemma takeIfFresh_object env s data :
  sessionStorage s = Some (JSONObject data) ->
  takeIfFresh env s =
  (Ok (if (Num.of_Z (now env) - ToNumber (prop data "timestamp") > n3000)%num
       then None else Some data),
   set_sessionStorage None s).
Proof.
  intros H. unfold takeIfFresh, bind, gets. rewrite H. cbn.
  destruct (_ > _)%num; reflexivity.
Qed.

Lemma takeIfFresh_empty env s :
  sessionStorage s = None -> takeIfFresh env s = (Ok None, s).
Proof. intros H. unfold takeIfFresh, bind, gets. rewrite H. reflexivity. Qed.

Lemma age_test (t : Z) (ts : Q) :
  (Num.of_Z t - Fin ts > n3000)%num = negb (Qle_bool (inject_Z t - ts) 3000).
Proof.
  cbn -[Qred Qminus Qle_bool]. f_equal.
  apply eq_true_iff_eq. rewrite !Qle_bool_iff, Qred_correct. reflexivity.
Qed.

Lemma checkIncomingTransition_object env s data :
  sessionStorage s = Some (JSONObject data) ->
  checkIncomingTransition env s =
  let cleared := set_sessionStorage None s in
  if (Num.of_Z (now env) - ToNumber (prop data "timestamp") > n3000)%num
  then (Ok tt, cleared)
  else match servicePage s, heroLogo s with
       | Some _, Some _ => (Ok tt, snd (completeTransition env data cleared))
       | _, _ => (Ok tt, cleared)
       end.
Proof.
  intros H. unfold checkIncomingTransition, bind at 1.
  rewrite (takeIfFresh_object env s data H).
  destruct (_ > _)%num; [reflexivity |].
  unfold bind, gets. cbn [servicePage heroLogo set_sessionStorage].
  destruct (servicePage s), (heroLogo s); reflexivity.
Qed.

Lemma checkIncomingTransition_empty env s :
  sessionStorage s = None -> checkIncomingTransition env s = (Ok tt, s).
Proof.
  intros H. unfold checkIncomingTransition, bind.
  rewrite (takeIfFresh_empty env s H). reflexivity.
Qed.

Lemma init_unfold env s :
  init env s =
  match checkIncomingTransition env (set_overlay [] s) with
  | (Ok _, s') => (Ok tt, set_debugPanel true (set_listening true s'))
  | (Throw e, s') => (Throw e, s')
  end.
Proof.
  unfold init, createOverlay, attachLinkHandlers, createDebugPanel, bind, modify.
  destruct (checkIncomingTransition env (set_overlay [] s)) as [[[] | e] s'];
    reflexivity.
Qed.

(** C1.  A stored record with a numeric timestamp is removed from the
    session storage by the first read, whatever its age; it passes the age
    test, and is replayed by [completeTransition] when the page has its
    markers, exactly when [now - timestamp <= 3000]; an older record yields
    nothing beyond the removal.  Hence after one [startTransition] the
    first load leaves the storage empty and a second load finds nothing. *)
Theorem handoff_read_once :
  (forall env s data ts,
     sessionStorage s = Some (JSONObject data) ->
     data !! "timestamp" = Some (JNum ts) ->
     let cleared := set_sessionStorage None s in
     let fresh := Qle_bool (inject_Z (now env) - ts) 3000 in
     let after := snd (checkIncomingTransition env s) in
     (fresh = true <-> (inject_Z (now env) - ts <= 3000)%Q) /\
     takeIfFresh env s = (Ok (if fresh then Some data else None), cleared) /\
     fst (checkIncomingTransition env s) = Ok tt /\
     sessionStorage after = None /\
     (fresh = false -> after = cleared) /\
     (fresh = true -> is_Some (servicePage s) -> is_Some (heroLogo s) ->
      after = snd (completeTransition env data cleared) /\
      pending after =
        pending s ++ [mkTask (S (next_id s)) (Timeout 50) (AfterSettle data)]) /\
     (forall env', takeIfFresh env' after = (Ok None, after))) /\
  (forall env0 targetUrl serviceData s0 env1 page hero env2 page' hero',
     let put := snd (startTransition env0 targetUrl serviceData s0) in
     let first := load env1 (sessionStorage put) page hero in
     let second := load env2 (sessionStorage (snd first)) page' hero' in
     fst first = Ok tt /\
     sessionStorage (snd first) = None /\
     second = (Ok tt, set_debugPanel true
                        (set_listening true (newDocument None page' hero')))).
Proof.
  assert (A : forall env s data ts,
     sessionStorage s = Some (JSONObject data) ->
     data !! "timestamp" = Some (JNum ts) ->
     let cleared := set_sessionStorage None s in
     let fresh := Qle_bool (inject_Z (now env) - ts) 3000 in
     let after := snd (checkIncomingTransition env s) in
     fst (checkIncomingTransition env s) = Ok tt /\
     sessionStorage after = None /\
     (fresh = false -> after = cleared) /\
     (fresh = true -> is_Some (servicePage s) -> is_Some (heroLogo s) ->
      after = snd (completeTransition env data cleared))).
  { intros env s data ts Hs Ht cleared fresh after. subst after.
    rewrite (checkIncomingTransition_object env s data Hs). cbn zeta.
    unfold prop. rewrite Ht. cbn [of_json ToNumber]. rewrite age_test.
    fold fresh. fold cleared.
    destruct fresh; cbn [negb].
    - destruct (servicePage s) as [p |] eqn:Hp, (heroLogo s) as [h |] eqn:Hh;
        rewrite ?completeTransition_state; cbn [fst snd sessionStorage];
        (repeat split; try reflexivity; try discriminate);
        intros _ [? ?] [? ?]; discriminate.
    - repeat split; try reflexivity. discriminate. }
  split.
  - intros env s data ts Hs Ht cleared fresh after.
    destruct (A env s data ts Hs Ht) as (Hok & Hnone & Hstale & Hfresh).
    fold cleared in Hstale, Hfresh. fold fresh in Hstale, Hfresh.
    fold after in Hnone, Hstale, Hfresh.
    split; [apply Qle_bool_iff |].
    split.
    { rewrite (takeIfFresh_object env s data Hs). unfold prop. rewrite Ht.
      cbn [of_json ToNumber]. rewrite age_test. fold fresh.
      destruct fresh; reflexivity. }
    split; [exact Hok |]. split; [exact Hnone |]. split; [exact Hstale |].
    split.
    { intros Hf Hp Hh. split; [now apply Hfresh |].
      rewrite (Hfresh Hf Hp Hh), completeTransition_state. reflexivity. }
    intros env'. now apply takeIfFresh_empty.
  - intros env0 targetUrl sd s0 env1 page hero env2 page' hero' put first second.
    assert (Hput : sessionStorage put = Some (JSONObject (handoff env0 sd)))
      by (subst put; rewrite startTransition_state; reflexivity).
    pose (doc := set_overlay [] (newDocument (sessionStorage put) page hero)).
    destruct (A env1 doc (handoff env0 sd) (inject_Z (now env0)))
      as (Hok & Hnone & _); [subst doc; exact Hput | apply handoff_timestamp |].
    assert (Hfirst : fst first = Ok tt /\ sessionStorage (snd first) = None).
    { subst first. unfold load. rewrite init_unfold. fold doc.
      destruct (checkIncomingTransition env1 doc) as [[[] | e] s'];
        cbn in Hok, Hnone |- *; [split; [reflexivity | exact Hnone] |].
      discriminate. }
    destruct Hfirst as [H1 H2]. split; [exact H1 |]. split; [exact H2 |].
    subst second. rewrite H2. unfold load. rewrite init_unfold.
    rewrite checkIncomingTransition_empty by reflexivity. reflexivity.
Qed.

Lemma handoff_read_once_witness :
  sessionStorage arriving = Some (JSONObject (handoff (at_time 1000) plain_data)) /\
  takeIfFresh (at_time 2000) arriving
    = (Ok (Some (handoff (at_time 1000) plain_data)),
       set_sessionStorage None arriving) /\
  takeIfFresh (at_time 4001) arriving
    = (Ok None, set_sessionStorage None arriving).
Proof.
  split; [reflexivity |]. split.
  - exact (proj1 (proj2 (proj1 handoff_read_once (at_time 2000) arriving
                           (handoff (at_time 1000) plain_data) (inject_Z 1000)
                           eq_refl eq_refl))).
  - exact (proj1 (proj2 (proj1 handoff_read_once (at_time 4001) arriving
                           (handoff (at_time 1000) plain_data) (inject_Z 1000)
                           eq_refl eq_refl))).
Defined.

(** ** Stored text that is not a handoff record *)



(** ** Missing destination markers *)

(** C7.  When the page lacks the hero element or the page container, a
    stored record is removed and nothing else changes: the hero and page
    are untouched, no clone is made and nothing is scheduled. *)
Theorem checkIncomingTransition_without_markers env s data :
  sessionStorage s = Some (JSONObject data) ->
  servicePage s = None \/ heroLogo s = None ->
  let after := snd (checkIncomingTransition env s) in
  checkIncomingTransition env s = (Ok tt, set_sessionStorage None s) /\
  sessionStorage after = None /\
  heroLogo after = heroLogo s /\
  servicePage after = servicePage s /\
  overlay after = overlay s /\
  pending after = pending s /\
  body_transitioning after = body_transitioning s /\
  (forall env', takeIfFresh env' after = (Ok None, after)).
Proof.
  intros Hs Hm after.
  assert (H : checkIncomingTransition env s = (Ok tt, set_sessionStorage None s)).
  { rewrite (checkIncomingTransition_object env s data Hs). cbn zeta.
    destruct (_ > _)%num; [reflexivity |].
    destruct Hm as [-> | ->]; [reflexivity |].
    destruct (servicePage s); reflexivity. }
  subst after. rewrite H. cbn [snd].
  split; [reflexivity |]. do 6 (split; [reflexivity |]).
  intros env'. now apply takeIfFresh_empty.
Qed.

Lemma checkIncomingTransition_without_markers_witness :
  let doc := set_overlay [] (newDocument (sessionStorage clicked) None None) in
  checkIncomingTransition (at_time 2000) doc
  = (Ok tt, set_sessionStorage None doc).
Proof.
  intros doc.
  exact (proj1 (checkIncomingTransition_without_markers (at_time 2000) doc
                  (handoff (at_time 1000) plain_data) eq_refl
                  (or_introl eq_refl))).
Defined.

(** ** The in-flight guard *)

(** C6.  A click that arrives while [isTransitioning] is set does nothing:
    the turn ends normally with the state unchanged, so no clone is added
    and the storage is not written. *)
Theorem click_while_transitioning env link s :
  isTransitioning s = true ->
  step env (Click link) s = (Ok tt, s) /\
  overlay (snd (step env (Click link) s)) = overlay s /\
  sessionStorage (snd (step env (Click link) s)) = sessionStorage s /\
  pending (snd (step env (Click link) s)) = pending s.
Proof.
  intros H.
  assert (E : step env (Click link) s = (Ok tt, s)).
  { unfold step, bind, gets. cbn beta iota.
    destruct (listening s); [| reflexivity].
    unfold onClick, bind, gets. cbn beta iota. rewrite H. reflexivity. }
  rewrite E. repeat split.
Qed.

Lemma click_while_transitioning_witness :
  isTransitioning clicked = true /\
  length (overlay clicked) = 1%nat /\
  step (at_time 1200) (Click zero_scale_link) clicked = (Ok tt, clicked).
Proof.
  split; [reflexivity |]. split; [reflexivity |].
  exact (proj1 (click_while_transitioning (at_time 1200) zero_scale_link
                  clicked eq_refl)).
Defined.

(** ** Expand, then navigate *)

Lemma getServiceData_throws link s e s' :
  getServiceData link s = (Throw e, s') -> s' = s.
Proof.
  unfold getServiceData, throw, ret.
  destruct (logoWrapper link) as [w |]; [destruct (svg w) |]; congruence.
Qed.

Lemma onClick_cases env link s :
  (fst (onClick env link s) = Ok tt /\ snd (onClick env link s) = s) \/
  (exists e, onClick env link s = (Throw e, s)) \/
  (exists serviceData,
     getServiceData link s = (Ok serviceData, s) /\
     isTransitioning s = false /\
     onClick env link s = startTransition env (getAttribute_href link) serviceData s).
Proof.
  unfold onClick, bind, gets. cbn beta iota.
  destruct (isTransitioning s) eqn:Hb; [left; split; reflexivity |].
  right. destruct (getServiceData link s) as [[sd | e] s'] eqn:Hg.
  - destruct (getServiceData_pure _ _ _ _ Hg) as [-> _]. right. exists sd. auto.
  - left. exists e. now rewrite (getServiceData_throws _ _ _ _ Hg).
Qed.

Lemma animate_cases from to duration k s :
  animate from to duration k s = (Throw TypeError, s) \/
  exists el,
    transitionLogo s = Some el /\
    animate from to duration k s =
      (Ok tt,
       set_pending (pending s ++ [mkTask (next_id s)
                                    (Animation el from to duration) k])
         (set_next_id (S (next_id s)) s)).
Proof.
  unfold animate, bind, gets, modify, throw. cbn beta iota.
  destruct (transitionLogo s) as [el |] eqn:Hl; [right | left; reflexivity].
  exists el. split; reflexivity.
Qed.

Lemma previewTransition_effect env link s :
  let s' := snd (previewTransition env link s) in
  location s' = location s /\
  sessionStorage s' = sessionStorage s /\
  (pending s' = pending s \/
   exists id w rect target,
     pending s' = pending s ++ [mkTask id w (PreviewExpanded rect target)]).
Proof.
  cbn zeta. remember (previewTransition env link s) as r eqn:Hr.
  unfold previewTransition, bind at 1 in Hr.
  destruct (getServiceData link s) as [[sd | e] s1] eqn:Hg.
  - destruct (getServiceData_pure _ _ _ _ Hg) as [-> _]. cbn in Hr.
    subst r. cbn. repeat split. right. eauto.
  - rewrite (getServiceData_throws _ _ _ _ Hg) in Hr. subst r. cbn. auto.
Qed.

Lemma cleanup_frame s :
  fst (cleanup s) = Ok tt /\
  location (snd (cleanup s)) = location s /\
  pending (snd (cleanup s)) = pending s /\
  sessionStorage (snd (cleanup s)) = sessionStorage s.
Proof.
  unfold cleanup, bind, gets, modify, ret. cbn beta iota.
  destruct (transitionLogo s); cbn; auto.
Qed.

(** What resuming a continuation does to the location and to the parked
    tasks. *)
Lemma resume_effect env k s :
  let s' := snd (resume env k s) in
  match k with
  | AfterExpand url =>
      resume env k s = (Ok tt, set_location (Some url) s)
  | AfterShrink | PreviewShrunk =>
      location s' = location s /\ pending s' = pending s
  | _ =>
      location s' = location s /\
      (pending s' = pending s \/
       exists id w,
         pending s' =
           pending s ++
           [mkTask id w
              match k with
              | AfterSettle _ => ShrinkFinished AfterShrink
              | ShrinkFinished k' => k'
              | PreviewExpanded rect target => PreviewHeld rect target
              | _ => PreviewShrunk
              end])
  end.
Proof.
  destruct k as [url | data | k' | | rect target | rect target |]; cbn zeta.
  - reflexivity.
  - unfold resume, shrinkLogo.
    destruct (animate_cases (boxFrame (shrinkStart env data))
                (boxFrame (heroRect env)) shrinkDuration
                (ShrinkFinished AfterShrink) s) as [-> | (el & _ & ->)];
      cbn; eauto.
  - unfold resume, fadeOut.
    destruct (animate_cases (mkKeyframe None (Fin 1)) (mkKeyframe None n0) 200
                k' s) as [-> | (el & _ & ->)];
      cbn; eauto.
  - unfold resume, revealHero, onHero, bind, gets, modify. cbn beta iota.
    match goal with |- context [cleanup ?x] =>
      destruct (cleanup_frame x) as (Hok & Hl & Hp & _);
      destruct (cleanup x) as [[[] | e] s1]
    end; cbn in *; [auto | discriminate].
  - cbn. eauto.
  - unfold resume.
    destruct (animate_cases (boxFrame target) (boxFrame rect) 600
                PreviewShrunk s) as [-> | (el & _ & ->)];
      cbn; eauto.
  - unfold resume, bind, modify.
    destruct (cleanup_frame s) as (Hok & Hl & Hp & _).
    destruct (cleanup s) as [[[] | e] s1]; cbn in *; [auto | discriminate].
Qed.

Lemma findTask_elem id tasks t :
  findTask id tasks = Some t -> t ∈ tasks /\ task_id t = id.
Proof.
  unfold findTask. intros H. apply find_some in H as [Hin Hid].
  split; [now apply list_elem_of_In | now apply Nat.eqb_eq].
Qed.

Lemma dropTask_keeps id tasks t :
  t ∈ tasks -> task_id t <> id -> t ∈ dropTask id tasks.
Proof. intros Hin Hne. unfold dropTask. apply list_elem_of_filter. auto. Qed.

Lemma dropTask_sub id tasks t : t ∈ dropTask id tasks -> t ∈ tasks.
Proof. unfold dropTask. intros H. now apply list_elem_of_filter in H. Qed.

Lemma step_fire env id s :
  step env (Fire id) s =
  match findTask id (pending s) with
  | Some t => resume env (kont t) (set_pending (dropTask id (pending s)) s)
  | None => (Ok tt, s)
  end.
Proof.
  unfold step, bind, gets, modify, ret. cbn beta iota.
  destruct (findTask id (pending s)); reflexivity.
Qed.

Lemma step_click env link s :
  step env (Click link) s =
  if listening s then onClick env link s else (Ok tt, s).
Proof.
  unfold step, bind, gets, ret. cbn beta iota.
  destruct (listening s); reflexivity.
Qed.

Lemma step_preview env link s :
  step env (Preview link) s =
  if debugPanel s then previewTransition env link s else (Ok tt, s).
Proof.
  unfold step, bind, gets, ret. cbn beta iota.
  destruct (debugPanel s); reflexivity.
Qed.

Lemma checkIncomingTransition_effect env s :
  let s' := snd (checkIncomingTransition env s) in
  location s' = location s /\
  (pending s' = pending s \/
   exists id data,
     pending s' = pending s ++ [mkTask id (Timeout 50) (AfterSettle data)]).
Proof.
  cbn zeta. destruct (sessionStorage s) as [[text | | data] |] eqn:Hs.
  - unfold checkIncomingTransition, takeIfFresh, bind, gets, throw, ret.
    rewrite Hs. cbn [text_is_empty]. destruct (String.eqb text ""); cbn; auto.
  - unfold checkIncomingTransition, takeIfFresh, bind, gets, throw, ret.
    rewrite Hs. cbn. auto.
  - rewrite (checkIncomingTransition_object env s data Hs). cbn zeta.
    destruct (_ > _)%num; [cbn; auto |].
    destruct (servicePage s), (heroLogo s);
      rewrite ?completeTransition_state; cbn; eauto.
  - rewrite (checkIncomingTransition_empty env s Hs). cbn. auto.
Qed.

Lemma resume_keeps env k s t :
  t ∈ pending s -> t ∈ pending (snd (resume env k s)).
Proof.
  intros Hin. pose proof (resume_effect env k s) as H. cbn zeta in H.
  destruct k; try (rewrite H; exact Hin);
    try (destruct H as [_ [-> | (id & w & ->)]];
         [exact Hin | apply elem_of_app; auto]);
    destruct H as [_ ->]; exact Hin.
Qed.

Lemma resume_tasks_ok env k s :
  tasks_ok s -> (forall k', k = ShrinkFinished k' -> k' = AfterShrink) ->
  (forall url, k <> AfterExpand url) ->
  tasks_ok (snd (resume env k s)).
Proof.
  intros Hok Hk Hne t. pose proof (resume_effect env k s) as H. cbn zeta in H.
  destruct k as [url | data | k' | | rect target | rect target |].
  - now destruct (Hne url).
  - destruct H as [_ [-> | (id & w & ->)]]; [apply Hok |].
    intros [Hin | ->%list_elem_of_singleton]%elem_of_app;
      [now apply Hok | reflexivity].
  - destruct H as [_ [-> | (id & w & ->)]]; [apply Hok |].
    intros [Hin | ->%list_elem_of_singleton]%elem_of_app; [now apply Hok |].
    unfold task_ok. cbn. now rewrite (Hk k' eq_refl).
  - destruct H as [_ ->]. apply Hok.
  - destruct H as [_ [-> | (id & w & ->)]]; [apply Hok |].
    intros [Hin | ->%list_elem_of_singleton]%elem_of_app;
      [now apply Hok | exact I].
  - destruct H as [_ [-> | (id & w & ->)]]; [apply Hok |].
    intros [Hin | ->%list_elem_of_singleton]%elem_of_app;
      [now apply Hok | exact I].
  - destruct H as [_ ->]. apply Hok.
Qed.

Lemma load_tasks_ok env storage page hero :
  tasks_ok (snd (load env storage page hero)).
Proof.
  unfold load. rewrite init_unfold.
  set (doc := set_overlay [] (newDocument storage page hero)).
  destruct (checkIncomingTransition_effect env doc) as [_ Hp].
  destruct (checkIncomingTransition env doc) as [[[] | e] s']; cbn in Hp |- *;
    intros t; cbn [pending set_debugPanel set_listening];
    destruct Hp as [-> | (id & data & ->)]; cbn;
    try (intros H; now apply elem_of_nil in H);
    intros ->%list_elem_of_singleton; exact I.
Qed.

Lemma step_tasks_ok env e s : tasks_ok s -> tasks_ok (snd (step env e s)).
Proof.
  intros Hok. destruct e as [link | link | id].
  - rewrite step_click. destruct (listening s); [| exact Hok].
    destruct (onClick_cases env link s)
      as [[_ ->] | [(e & ->) | (sd & _ & _ & ->)]]; try exact Hok.
    rewrite startTransition_state. intros t. cbn [snd pending].
    intros [Hin | ->%list_elem_of_singleton]%elem_of_app; [now apply Hok |].
    unfold task_ok. cbn. eauto.
  - rewrite step_preview. destruct (debugPanel s); [| exact Hok].
    destruct (previewTransition_effect env link s)
      as (_ & _ & [Hp | (id & w & rect & target & Hp)]);
      intros t; rewrite Hp; [apply Hok |].
    intros [Hin | ->%list_elem_of_singleton]%elem_of_app;
      [now apply Hok | exact I].
  - rewrite step_fire. destruct (findTask id (pending s)) as [t0 |] eqn:Hf;
      [| exact Hok].
    apply findTask_elem in Hf as [Hin0 _].
    assert (Hok0 : tasks_ok (set_pending (dropTask id (pending s)) s)).
    { intros t Ht. apply Hok. cbn in Ht. now apply dropTask_sub in Ht. }
    pose proof (Hok t0 Hin0) as Ht0. unfold task_ok in Ht0.
    destruct (kont t0) as [url | | k' | | | |] eqn:Hk;
      try (apply resume_tasks_ok; [exact Hok0 | congruence | congruence]).
    cbn. exact Hok0.
Qed.

Lemma reachable_tasks_ok s : reachable s -> tasks_ok s.
Proof.
  induction 1 as [env storage page hero | env e s _ IH].
  - apply load_tasks_ok.
  - now apply step_tasks_ok.
Qed.

(** ** Identities of the parked tasks *)

Lemma cleanup_result s :
  cleanup s =
  (Ok tt,
   set_isTransitioning false
     match transitionLogo s with
     | Some el =>
         set_transitionLogo None
           (set_overlay (filter (fun e => el_id e ≠ el) (overlay s)) s)
     | None => s
     end).
Proof.
  unfold cleanup, bind, gets, modify, ret. cbn beta iota.
  destruct (transitionLogo s); reflexivity.
Qed.

Lemma previewTransition_state env link serviceData s :
  getServiceData link s = (Ok serviceData, s) ->
  previewTransition env link s =
  (Ok tt,
   mkState (sessionStorage s) (location s) true
     (VStr (fillColor serviceData)) (transition_color s)
     (servicePage s) (heroLogo s)
     (overlay s ++ [mkElement (next_id s) (VStr (svgContent serviceData))
                      (rect serviceData)])
     (Some (next_id s)) (isTransitioning s) (listening s) (debugPanel s)
     (pending s ++
      [mkTask (S (next_id s))
         (Animation (next_id s) (boxFrame (rect serviceData))
            (boxFrame (expandTarget env serviceData)) 600)
         (PreviewExpanded (rect serviceData) (expandTarget env serviceData))])
     (S (S (next_id s)))).
Proof.
  intros Hg. unfold previewTransition, bind at 1. rewrite Hg. reflexivity.
Qed.

Lemma checkIncomingTransition_cases env s :
  let s' := snd (checkIncomingTransition env s) in
  s' = s \/ s' = set_sessionStorage None s \/
  exists data, s' = snd (completeTransition env data (set_sessionStorage None s)).
Proof.
  cbn zeta. destruct (sessionStorage s) as [[text | | data] |] eqn:Hs.
  - left. unfold checkIncomingTransition, takeIfFresh, bind, gets, throw, ret.
    rewrite Hs. cbn [text_is_empty]. destruct (String.eqb text ""); reflexivity.
  - left. unfold checkIncomingTransition, takeIfFresh, bind, gets, throw, ret.
    rewrite Hs. reflexivity.
  - right. rewrite (checkIncomingTransition_object env s data Hs). cbn zeta.
    destruct (_ > _)%num; [left; reflexivity |].
    destruct (servicePage s), (heroLogo s); eauto.
  - left. now rewrite (checkIncomingTransition_empty env s Hs).
Qed.

Lemma delay_state ms k s :
  delay ms k s =
  (Ok tt,
   set_pending (pending s ++ [mkTask (next_id s) (Timeout ms) k])
     (set_next_id (S (next_id s)) s)).
Proof. reflexivity. Qed.

Lemma revealHero_ids s :
  pending (snd (revealHero s)) = pending s /\
  next_id (snd (revealHero s)) = next_id s.
Proof.
  unfold revealHero, onHero, bind, gets, modify. cbn beta iota.
  rewrite cleanup_result. cbn [fst snd].
  match goal with
  | |- context [match transitionLogo ?x with _ => _ end] =>
      destruct (transitionLogo x)
  end; split; reflexivity.
Qed.

Lemma ids_ok_same s s' :
  pending s' = pending s -> (next_id s <= next_id s')%nat ->
  ids_ok s -> ids_ok s'.
Proof.
  intros Hp Hn [Hd Hlt]. unfold ids_ok. rewrite Hp. split; [exact Hd |].
  intros t Ht. specialize (Hlt t Ht). lia.
Qed.

Lemma ids_ok_push s s' id w k :
  pending s' = pending s ++ [mkTask id w k] ->
  (next_id s <= id < next_id s')%nat ->
  ids_ok s -> ids_ok s'.
Proof.
  intros Hp Hn [Hd Hlt]. unfold ids_ok. rewrite Hp. split.
  - rewrite fmap_app. apply NoDup_app. split; [exact Hd |]. split.
    + intros x Hx Hx'. cbn in Hx'. apply list_elem_of_singleton in Hx'.
      apply list_elem_of_fmap in Hx as (t & -> & Ht).
      specialize (Hlt t Ht). lia.
    + apply NoDup_singleton.
  - intros t [Ht | ->%list_elem_of_singleton]%elem_of_app.
    + specialize (Hlt t Ht). lia.
    + cbn. lia.
Qed.

Lemma ids_ok_drop id s :
  ids_ok s -> ids_ok (set_pending (dropTask id (pending s)) s).
Proof.
  intros [Hd Hlt]. split; cbn [pending next_id set_pending].
  - apply (sublist_NoDup _ (task_id <$> pending s)); [exact Hd |].
    apply fmap_sublist. unfold dropTask. apply sublist_filter.
  - intros t Ht. apply Hlt. now apply dropTask_sub in Ht.
Qed.

Lemma animate_ids from to duration k s :
  ids_ok s -> ids_ok (snd (animate from to duration k s)).
Proof.
  intros H.
  destruct (animate_cases from to duration k s) as [-> | (el & _ & ->)];
    [exact H |].
  apply (ids_ok_push s _ (next_id s) (Animation el from to duration) k);
    [reflexivity | cbn; lia | exact H].
Qed.

Lemma resume_ids env k s : ids_ok s -> ids_ok (snd (resume env k s)).
Proof.
  intros H. destruct k as [url | data | k' | | rect target | rect target |].
  - revert H. apply ids_ok_same; cbn; [reflexivity | lia].
  - now apply animate_ids.
  - now apply animate_ids.
  - cbn [resume]. destruct (revealHero_ids s) as [Hp Hn]. revert H.
    apply ids_ok_same; [exact Hp | rewrite Hn; lia].
  - cbn [resume]. rewrite delay_state.
    apply (ids_ok_push s _ (next_id s) (Timeout 500) (PreviewHeld rect target));
      [reflexivity | cbn; lia | exact H].
  - now apply animate_ids.
  - unfold resume, bind, modify. rewrite cleanup_result. revert H.
    apply ids_ok_same; destruct (transitionLogo s); cbn; (reflexivity || lia).
Qed.

Lemma load_ids env storage page hero :
  ids_ok (snd (load env storage page hero)).
Proof.
  unfold load. rewrite init_unfold.
  set (doc := set_overlay [] (newDocument storage page hero)).
  assert (H0 : ids_ok doc).
  { split; cbn; [constructor | intros t Ht; now apply elem_of_nil in Ht]. }
  assert (H : ids_ok (snd (checkIncomingTransition env doc))).
  { destruct (checkIncomingTransition_cases env doc)
      as [-> | [-> | (data & ->)]]; [exact H0 | exact H0 |].
    rewrite completeTransition_state. cbn [snd].
    apply (ids_ok_push doc _ 1%nat (Timeout 50) (AfterSettle data));
      [reflexivity | cbn; lia | exact H0]. }
  destruct (checkIncomingTransition env doc) as [[[] | e] s']; cbn [snd] in *;
    [| exact H].
  revert H. apply ids_ok_same; cbn; [reflexivity | lia].
Qed.

Lemma step_ids env e s : ids_ok s -> ids_ok (snd (step env e s)).
Proof.
  intros H. destruct e as [link | link | id].
  - rewrite step_click. destruct (listening s); [| exact H].
    destruct (onClick_cases env link s)
      as [[_ ->] | [(e & ->) | (sd & _ & _ & ->)]]; try exact H.
    rewrite startTransition_state. cbn [snd].
    eapply (ids_ok_push s _ (S (next_id s))); [reflexivity | cbn; lia | exact H].
  - rewrite step_preview. destruct (debugPanel s); [| exact H].
    destruct (getServiceData link s) as [[sd | e] s1] eqn:Hg.
    + destruct (getServiceData_pure _ _ _ _ Hg) as [-> _].
      rewrite (previewTransition_state env link sd s Hg). cbn [snd].
      eapply (ids_ok_push s _ (S (next_id s)));
        [reflexivity | cbn; lia | exact H].
    + unfold previewTransition, bind at 1. rewrite Hg.
      now rewrite (getServiceData_throws _ _ _ _ Hg).
  - rewrite step_fire. destruct (findTask id (pending s)); [| exact H].
    now apply resume_ids, ids_ok_drop.
Qed.

Lemma reachable_ids s : reachable s -> ids_ok s.
Proof.
  induction 1 as [env storage page hero | env e s _ IH].
  - apply load_ids.
  - now apply step_ids.
Qed.

Lemma findTask_unique tasks t :
  NoDup (task_id <$> tasks) -> t ∈ tasks ->
  findTask (task_id t) tasks = Some t.
Proof.
  unfold findTask. induction tasks as [| t0 tasks IH]; intros Hd Hin.
  - now apply elem_of_nil in Hin.
  - cbn in Hd. apply NoDup_cons in Hd as [Hnotin Hd]. cbn [find].
    apply elem_of_cons in Hin as [-> | Hin].
    + now rewrite Nat.eqb_refl.
    + destruct (Nat.eqb_spec (task_id t0) (task_id t)) as [E | _];
        [| now apply IH].
      exfalso. apply Hnotin. rewrite E. now apply list_elem_of_fmap_2.
Qed.

(** C5.  In every reachable state: a turn changes [location.href] only by
    resuming [startTransition] at the finish of an expand animation; when
    that animation finishes, the turn ends without error with
    [location.href] equal to the link's URL, the waiting task gone and the
    stored record untouched; until then no other event removes the waiting
    task; a click that starts a transition parks exactly that task without
    touching the location; and the parked tasks have pairwise distinct
    identities, so an event [Fire (task_id t)] completes [t] and no other
    task. *)
Theorem navigation_follows_expand s env e :
  reachable s ->
  let s' := snd (step env e s) in
  (location s' <> location s ->
   exists id t el from to url,
     e = Fire id /\ findTask id (pending s) = Some t /\
     wake t = Animation el from to expandDuration /\
     kont t = AfterExpand url /\ location s' = Some url) /\
  (forall id t url,
     e = Fire id -> findTask id (pending s) = Some t ->
     kont t = AfterExpand url ->
     step env e s =
       (Ok tt, set_location (Some url)
                 (set_pending (dropTask id (pending s)) s)) /\
     fst (step env e s) = Ok tt /\
     location s' = Some url /\
     pending s' = dropTask id (pending s) /\
     sessionStorage s' = sessionStorage s) /\
  (forall t, t ∈ pending s -> e <> Fire (task_id t) -> t ∈ pending s') /\
  (forall link serviceData,
     e = Click link -> listening s = true -> isTransitioning s = false ->
     getServiceData link s = (Ok serviceData, s) ->
     location s' = location s /\
     pending s' =
       pending s ++
       [mkTask (S (next_id s))
          (Animation (next_id s) (boxFrame (rect serviceData))
             (boxFrame (expandTarget env serviceData)) expandDuration)
          (AfterExpand (getAttribute_href link))]) /\
  (NoDup (task_id <$> pending s) /\
   forall t, t ∈ pending s -> findTask (task_id t) (pending s) = Some t) /\
  (forall t url,
     t ∈ pending s -> kont t = AfterExpand url -> e = Fire (task_id t) ->
     fst (step env e s) = Ok tt /\
     location s' = Some url /\
     t ∉ pending s').
Proof.
  intros Hr s'. pose proof (reachable_tasks_ok s Hr) as Hok.
  pose proof (reachable_ids s Hr) as [Hd _]. subst s'.
  split; [| split; [| split; [| split; [| split]]]].
  - destruct e as [link | link | id].
    + rewrite step_click. destruct (listening s); [| now intros []].
      destruct (onClick_cases env link s)
        as [[_ ->] | [(e & ->) | (sd & _ & _ & ->)]];
        rewrite ?startTransition_state; now intros [].
    + rewrite step_preview. destruct (debugPanel s); [| now intros []].
      destruct (previewTransition_effect env link s) as (-> & _). now intros [].
    + rewrite step_fire.
      destruct (findTask id (pending s)) as [t |] eqn:Hf; [| now intros []].
      pose proof (findTask_elem _ _ _ Hf) as [Hin _].
      pose proof (Hok t Hin) as Ht. unfold task_ok in Ht.
      pose proof (resume_effect env (kont t)
                    (set_pending (dropTask id (pending s)) s)) as H.
      cbn zeta in H.
      destruct (kont t) as [url | | | | | |] eqn:Hk;
        [| destruct H as [-> _]; now intros [] ..].
      destruct Ht as (el & from & to & Hw). intros _.
      exists id, t, el, from, to, url. rewrite H. auto.
  - intros id t url -> Hf Hk. rewrite step_fire, Hf, Hk.
    repeat split.
  - intros t Hin Hne. destruct e as [link | link | id].
    + rewrite step_click. destruct (listening s); [| exact Hin].
      destruct (onClick_cases env link s)
        as [[_ ->] | [(e & ->) | (sd & _ & _ & ->)]]; try exact Hin.
      rewrite startTransition_state. cbn. apply elem_of_app. auto.
    + rewrite step_preview. destruct (debugPanel s); [| exact Hin].
      destruct (previewTransition_effect env link s)
        as (_ & _ & [-> | (id & w & rect & target & ->)]);
        [exact Hin | apply elem_of_app; auto].
    + rewrite step_fire.
      destruct (findTask id (pending s)) as [t0 |]; [| exact Hin].
      apply resume_keeps. cbn. apply dropTask_keeps; [exact Hin |].
      congruence.
  - intros link sd -> Hl Hb Hg. rewrite step_click, Hl.
    unfold onClick, bind, gets. cbn beta iota. rewrite Hb, Hg.
    rewrite startTransition_state. split; reflexivity.
  - split; [exact Hd |]. intros t Hin. now apply findTask_unique.
  - intros t url Hin Hk ->.
    rewrite step_fire, (findTask_unique _ _ Hd Hin), Hk.
    split; [reflexivity |]. split; [reflexivity |].
    cbn. unfold dropTask. intros [Hne _]%list_elem_of_filter.
    now apply Hne.
Qed.

Lemma navigation_follows_expand_witness :
  reachable clicked /\
  location clicked = None /\
  pending clicked =
    [mkTask 1
       (Animation 0 (boxFrame (rect plain_data))
          (boxFrame (expandTarget (at_time 1000) plain_data)) expandDuration)
       (AfterExpand (VStr "spotify.html"))] /\
  fst (step (at_time 1800) (Fire 1) clicked) = Ok tt /\
  location (snd (step (at_time 1800) (Fire 1) clicked))
  = Some (VStr "spotify.html") /\
  pending (snd (step (at_time 1800) (Fire 1) clicked))
  = dropTask 1 (pending clicked).
Proof.
  assert (Hr : reachable clicked).
  { unfold clicked. apply reachable_step, reachable_load. }
  split; [exact Hr |]. split; [reflexivity |]. split; [reflexivity |].
  pose proof (proj1 (proj2 (navigation_follows_expand clicked (at_time 1800)
                              (Fire 1) Hr))
                1%nat _ (VStr "spotify.html") eq_refl eq_refl eq_refl)
    as (_ & Hok & Hl & Hp & _).
  split; [exact Hok |]. split; [exact Hl | exact Hp].
Defined.

(** ** One clone at a time *)

Lemma reachable_run evs s : reachable s -> reachable (run evs s).
Proof.
  revert s. induction evs as [| [env e] evs IH]; intros s Hr; cbn.
  - exact Hr.
  - apply IH. now apply reachable_step.
Qed.

(** C9 does not hold of the code: [previewTransition] neither tests nor
    sets [isTransitioning], so a second press of Preview adds a second clone
    to the overlay while the first is still there; [this.transitionLogo]
    then refers to the second one only, and when everything has finished
    the first clone is still in the overlay, with no reference left to
    remove it. *)
Theorem double_preview_two_clones :
  reachable double_preview /\
  isTransitioning double_preview = false /\
  map el_id (overlay double_preview) = [0; 2]%nat /\
  transitionLogo double_preview = Some 2%nat /\
  reachable double_preview_settled /\
  pending double_preview_settled = [] /\
  map el_id (overlay double_preview_settled) = [0%nat] /\
  transitionLogo double_preview_settled = None.
Proof.
  assert (H0 : reachable (snd (load (at_time 0) None None None)))
    by apply reachable_load.
  assert (H1 : reachable double_preview) by now apply reachable_run.
  split; [exact H1 |]. do 3 (split; [reflexivity |]).
  split; [now apply reachable_run |].
  repeat split.
Qed.

(** * Further properties of the code *)

(** ** The resolver on links without a logo *)

Lemma getServiceData_result link s :
  getServiceData link s =
  match logoWrapper link with
  | Some w =>
      match svg w with
      | Some html =>
          (Ok (mkServiceData (data_service link)
                 (str_or (data_color link) default_color) html (boundingRect w)
                 (num_or (parseFloat (data_scale link)) defaults_scale)
                 (num_or (parseFloat (data_offset_x link)) defaults_offsetX)
                 (num_or (parseFloat (data_offset_y link)) defaults_offsetY)),
           s)
      | None => (Throw TypeError, s)
      end
  | None => (Throw TypeError, s)
  end.
Proof.
  unfold getServiceData. destruct (logoWrapper link) as [w |]; [| reflexivity].
  destruct (svg w); reflexivity.
Qed.

(** X1.  [getServiceData] never changes the state; it throws a TypeError
    exactly when the link has no '.logo-wrapper' or the wrapper has no svg,
    and returns a record otherwise.  A click on such a link, on an idle
    page, therefore ends in an uncaught TypeError with nothing written: no
    flag, no stored record, no clone, no animation. *)
Theorem getServiceData_needs_logo :
  (forall link s,
     snd (getServiceData link s) = s /\
     (has_logo link = false <-> fst (getServiceData link s) = Throw TypeError) /\
     (has_logo link = true <-> exists d, fst (getServiceData link s) = Ok d)) /\
  (forall env link s,
     has_logo link = false -> listening s = true -> isTransitioning s = false ->
     step env (Click link) s = (Throw TypeError, s)).
Proof.
  split.
  - intros link s. rewrite getServiceData_result. unfold has_logo.
    destruct (logoWrapper link) as [w |]; [destruct (svg w) |]; cbn;
      (split; [reflexivity |]); split; split; intros H;
      try reflexivity; try discriminate; eauto;
      destruct H as [d H]; discriminate.
  - intros env link s Hb Hl Ht. rewrite step_click, Hl.
    unfold onClick, bind, gets. cbn beta iota. rewrite Ht.
    rewrite getServiceData_result. unfold has_logo in Hb.
    destruct (logoWrapper link) as [w |]; [destruct (svg w) |];
      try discriminate; reflexivity.
Qed.

Lemma getServiceData_needs_logo_witness :
  let s := snd (load (at_time 0) None None None) in
  step (at_time 1000) (Click bare_link) s = (Throw TypeError, s).
Proof.
  intros s.
  exact (proj2 getServiceData_needs_logo (at_time 1000) bare_link s
           eq_refl eq_refl eq_refl).
Defined.

(** ** Records with missing members *)

(** X2.  A stored record whose timestamp is missing, or is not a number
    (so that [Date.now() - data.timestamp] is NaN), passes the age test at
    any time: it is removed and handed on, however old it is. *)
Theorem record_without_timestamp_is_fresh env s (data : JObject) :
  sessionStorage s = Some (JSONObject data) ->
  data !! "timestamp" = None \/ ToNumber (prop data "timestamp") = NaN ->
  takeIfFresh env s = (Ok (Some data), set_sessionStorage None s).
Proof.
  intros Hs Ht. rewrite (takeIfFresh_object env s data Hs).
  assert (Hn : ToNumber (prop data "timestamp") = NaN).
  { destruct Ht as [Ht | Ht]; [| exact Ht]. unfold prop. now rewrite Ht. }
  rewrite Hn. reflexivity.
Qed.

Lemma record_without_timestamp_is_fresh_witness :
  let s := newDocument (Some (JSONObject stored_25)) None None in
  takeIfFresh (at_time 999999) s = (Ok (Some stored_25), set_sessionStorage None s).
Proof.
  intros s.
  exact (record_without_timestamp_is_fresh (at_time 999999) s stored_25
           eq_refl (or_introl eq_refl)).
Defined.

Lemma falsy_scale (data : JObject) :
  ToBoolean (prop data "scale") = false ->
  ToNumber (js_or (prop data "scale") (VNum defaults_scale)) = Fin 15.
Proof. intros H. unfold js_or. rewrite H. reflexivity. Qed.

Lemma falsy_offset (data : JObject) key :
  ToBoolean (prop data key) = false ->
  ToNumber (js_or (prop data key) (VNum n0)) = n0.
Proof. intros H. unfold js_or. rewrite H. reflexivity. Qed.

(** X3.  When the stored record has no usable scale and offsets (each is
    missing, null, zero, false or an empty string), the destination page
    places the clone, and starts the shrink, at the box of the defaults:
    the expand formula for a 64-unit source at scale 15 with no offsets,
    960 units wide. *)
Theorem expandedBox_defaults env (data : JObject) :
  ToBoolean (prop data "scale") = false ->
  ToBoolean (prop data "offsetX") = false ->
  ToBoolean (prop data "offsetY") = false ->
  expandedBox env data = expandTarget env (base64 (Fin 15) (Fin 0) (Fin 0)) /\
  shrinkStart env data = expandTarget env (base64 (Fin 15) (Fin 0) (Fin 0)) /\
  r_width (expandedBox env data) = Fin 960 /\
  r_height (expandedBox env data) = Fin 960.
Proof.
  intros Hs Hx Hy. unfold expandedBox, shrinkStart, expandTarget. cbn zeta.
  rewrite (falsy_scale data Hs), (falsy_offset data "offsetX" Hx),
    (falsy_offset data "offsetY" Hy).
  repeat split.
Qed.

Lemma expandedBox_defaults_witness :
  expandedBox (viewport 1920 1080) ∅
  = expandTarget (viewport 1920 1080) (base64 (Fin 15) (Fin 0) (Fin 0)).
Proof.
  exact (proj1 (expandedBox_defaults (viewport 1920 1080) ∅
                  eq_refl eq_refl eq_refl)).
Defined.

(** ** From the resolver to the destination page *)

Lemma num_or_truthy a d :
  Num.truthy d = true -> Num.truthy (num_or a d) = true.
Proof. intros H. unfold num_or. destruct (Num.truthy a) eqn:Ha; auto. Qed.

Lemma finite_inv n : is_finite n = true -> exists q, n = Fin q.
Proof. destruct n; try discriminate. eauto. Qed.

(** X4.  Whatever the link, when the resolver's scale and offsets are
    finite the record that [startTransition] stores for them is placed on
    arrival, and shrunk from, exactly where the expand formula puts a
    64-unit source with the same scale and offsets in the same viewport. *)
Theorem resolver_to_destination link s serviceData s' env0 env :
  getServiceData link s = (Ok serviceData, s') ->
  is_finite (scale serviceData) = true ->
  is_finite (offsetX serviceData) = true ->
  is_finite (offsetY serviceData) = true ->
  let target :=
    expandTarget env (base64 (scale serviceData) (offsetX serviceData)
                        (offsetY serviceData)) in
  expandedBox env (handoff env0 serviceData) = target /\
  shrinkStart env (handoff env0 serviceData) = target.
Proof.
  intros Hg Fs Fx Fy target.
  assert (Ht : Num.truthy (scale serviceData) = true).
  { apply getServiceData_pure in Hg as (_ & w & html & _ & _ & ->).
    cbn [scale]. now apply num_or_truthy. }
  apply finite_inv in Fs as [sc Es], Fx as [ox Ex], Fy as [oy Ey].
  assert (Hnz : ~ (sc == 0)%Q).
  { rewrite Es in Ht. cbn in Ht. apply Qzero_false.
    now destruct (Num.Qzero sc). }
  subst target. rewrite Es, Ex, Ey.
  pose proof (handoff_box_matches env0 env serviceData sc ox oy Es Hnz Ex Ey)
    as H.
  split; [exact H |]. rewrite <- H. reflexivity.
Qed.

Lemma resolver_to_destination_witness :
  expandedBox (at_time 2000) (handoff (at_time 1000) plain_data)
  = expandTarget (at_time 2000) (base64 (Fin 25) (Fin (-30)) (Fin 0)).
Proof.
  exact (proj1 (resolver_to_destination plain_link (newDocument None None None)
                  plain_data _ (at_time 1000) (at_time 2000)
                  eq_refl eq_refl eq_refl eq_refl)).
Defined.

Lemma expandTarget_size env serviceData :
  r_width (expandTarget env serviceData)
  = (Num.max (r_width (rect serviceData)) (r_height (rect serviceData))
     * scale serviceData)%num.
Proof. reflexivity. Qed.

(** X6.  A scale that is not finite (as [data-scale="Infinity"] gives) does
    not survive the hand-over: [JSON.stringify] writes it as null, so the
    destination page falls back to scale 15 and a 960-unit box, while the
    expansion on the origin page ran to an infinite size. *)
Theorem infinite_scale_not_handed_over env0 env serviceData negative :
  scale serviceData = Inf negative ->
  prop (handoff env0 serviceData) "scale" = VNull /\
  r_width (expandedBox env (handoff env0 serviceData)) = Fin 960 /\
  (forall w h m,
     r_width (rect serviceData) = Fin w ->
     r_height (rect serviceData) = Fin h ->
     Num.max (Fin w) (Fin h) = Fin m -> ~ (m == 0)%Q ->
     is_finite (r_width (expandTarget env serviceData)) = false).
Proof.
  intros Es.
  assert (Hp : prop (handoff env0 serviceData) "scale" = VNull).
  { change (of_json (json_of_number (scale serviceData)) = VNull).
    now rewrite Es. }
  split; [exact Hp |]. split.
  - unfold expandedBox. cbn zeta. rewrite falsy_scale; [reflexivity |].
    now rewrite Hp.
  - intros w h m Ew Eh Em Hm. rewrite expandTarget_size, Ew, Eh, Em, Es.
    apply Qzero_false in Hm. cbn. now rewrite Hm.
Qed.

Lemma infinite_scale_not_handed_over_witness :
  let link := mkLink (Some "spotify.html") "spotify" None (Some "Infinity")
                None None (Some plain_wrapper) in
  exists d,
    getServiceData link (newDocument None None None)
      = (Ok d, newDocument None None None) /\
    scale d = Inf false /\
    r_width (expandedBox (at_time 2000) (handoff (at_time 1000) d)) = Fin 960.
Proof.
  intros link.
  pose (d := mkServiceData "spotify" "#6366f1" "<svg></svg>"
               (mkRect (Fin 100) (Fin 200) n64 n64) (Inf false) n0 n0).
  exists d.
  split; [reflexivity |]. split; [reflexivity |].
  exact (proj1 (proj2 (infinite_scale_not_handed_over (at_time 1000)
                         (at_time 2000) d false eq_refl))).
Defined.

(** X7.  The offsets move the expand target without resizing it: with
    finite parameters the box for offsets [(ox, oy)] is the box for zero
    offsets shifted right by [ox/100] of the viewport width and down by
    [oy/100] of the viewport height. *)
Theorem offsets_translate name color html left top (w h sc ox oy vw vh : Q) :
  let data o1 o2 :=
    mkServiceData name color html (mkRect left top (Fin w) (Fin h)) (Fin sc)
      o1 o2 in
  let box := expandTarget (viewport vw vh) (data (Fin ox) (Fin oy)) in
  let box0 := expandTarget (viewport vw vh) (data n0 n0) in
  r_left box = (r_left box0 + Fin ox / n100 * Fin vw)%num /\
  r_top box = (r_top box0 + Fin oy / n100 * Fin vh)%num /\
  r_width box = r_width box0 /\
  r_height box = r_height box0.
Proof.
  intros data box box0. subst box box0 data.
  unfold expandTarget, viewport.
  cbn -[Qred Qmult Qplus Qminus Qdiv Qle_bool].
  destruct (Qle_bool w h); cbn -[Qred Qmult Qplus Qminus Qdiv];
    (split; [| split; [| split; reflexivity]]);
    apply Fin_Qred_eq; rewrite !Qred_correct; field.
Qed.

(** ** What the events do to the session storage *)

Lemma revealHero_frame s :
  let s' := snd (revealHero s) in
  fst (revealHero s) = Ok tt /\
  sessionStorage s' = sessionStorage s /\
  location s' = location s /\
  pending s' = pending s /\
  transitionLogo s' = None /\
  isTransitioning s' = false.
Proof.
  cbn zeta. unfold revealHero, onHero, bind, gets, modify. cbn beta iota.
  rewrite cleanup_result. cbn [fst snd].
  match goal with
  | |- context [match transitionLogo ?x with _ => _ end] =>
      destruct (transitionLogo x) eqn:Hlogo
  end; cbn -[filter] in *; repeat split; exact Hlogo.
Qed.

Lemma resume_storage env k s :
  sessionStorage (snd (resume env k s)) = sessionStorage s.
Proof.
  destruct k as [url | data | k' | | rect target | rect target |].
  - reflexivity.
  - unfold resume, shrinkLogo.
    destruct (animate_cases (boxFrame (shrinkStart env data))
                (boxFrame (heroRect env)) shrinkDuration
                (ShrinkFinished AfterShrink) s) as [-> | (el & _ & ->)];
      reflexivity.
  - unfold resume, fadeOut.
    destruct (animate_cases (mkKeyframe None (Fin 1)) (mkKeyframe None n0) 200
                k' s) as [-> | (el & _ & ->)]; reflexivity.
  - apply (revealHero_frame s).
  - reflexivity.
  - unfold resume.
    destruct (animate_cases (boxFrame target) (boxFrame rect) 600
                PreviewShrunk s) as [-> | (el & _ & ->)]; reflexivity.
  - unfold resume, bind, modify.
    destruct (cleanup_frame s) as (Hok & _ & _ & Hs).
    destruct (cleanup s) as [[[] | e] s1]; cbn in *; [exact Hs | discriminate].
Qed.

(** X8.  Once the constructor has run, the stored record changes in one
    way only: a click that starts a transition overwrites it with that
    transition's record.  The inspector's preview, and every animation or
    timer completion, leave the session storage as it is; nothing on the
    page ever clears it. *)
Theorem storage_written_by_clicks_only env e s :
  let s' := snd (step env e s) in
  sessionStorage s' = sessionStorage s \/
  exists link serviceData,
    e = Click link /\ isTransitioning s = false /\
    getServiceData link s = (Ok serviceData, s) /\
    sessionStorage s' = Some (JSONObject (handoff env serviceData)).
Proof.
  cbn zeta. destruct e as [link | link | id].
  - rewrite step_click. destruct (listening s); [| left; reflexivity].
    destruct (onClick_cases env link s)
      as [[_ ->] | [(e & ->) | (sd & Hg & Hb & ->)]];
      [left; reflexivity | left; reflexivity |].
    right. exists link, sd. rewrite startTransition_state. auto.
  - left. rewrite step_preview. destruct (debugPanel s); [| reflexivity].
    apply (previewTransition_effect env link s).
  - left. rewrite step_fire. destruct (findTask id (pending s)); [| reflexivity].
    now rewrite resume_storage.
Qed.

(** ** No click, no navigation *)

Lemma resume_stays env k s :
  quiet k -> stays s -> stays (snd (resume env k s)).
Proof.
  intros Hk [Hl Hp]. pose proof (resume_effect env k s) as H. cbn zeta in H.
  destruct k as [url | data | k' | | rect target | rect target |];
    [destruct Hk | | | | | |].
  - destruct H as [Hl' [Hp' | (id & w & Hp')]]; split;
      try (rewrite Hl'; exact Hl); intros t; rewrite Hp'; [apply Hp |].
    intros [Hin | ->%list_elem_of_singleton]%elem_of_app;
      [now apply Hp | exact I].
  - destruct H as [Hl' [Hp' | (id & w & Hp')]]; split;
      try (rewrite Hl'; exact Hl); intros t; rewrite Hp'; [apply Hp |].
    intros [Hin | ->%list_elem_of_singleton]%elem_of_app;
      [now apply Hp | exact Hk].
  - destruct H as [Hl' Hp']. split; [now rewrite Hl' |].
    intros t. rewrite Hp'. apply Hp.
  - destruct H as [Hl' [Hp' | (id & w & Hp')]]; split;
      try (rewrite Hl'; exact Hl); intros t; rewrite Hp'; [apply Hp |].
    intros [Hin | ->%list_elem_of_singleton]%elem_of_app;
      [now apply Hp | exact I].
  - destruct H as [Hl' [Hp' | (id & w & Hp')]]; split;
      try (rewrite Hl'; exact Hl); intros t; rewrite Hp'; [apply Hp |].
    intros [Hin | ->%list_elem_of_singleton]%elem_of_app;
      [now apply Hp | exact I].
  - destruct H as [Hl' Hp']. split; [now rewrite Hl' |].
    intros t. rewrite Hp'. apply Hp.
Qed.

Lemma load_stays env storage page hero :
  stays (snd (load env storage page hero)).
Proof.
  unfold load. rewrite init_unfold.
  set (doc := set_overlay [] (newDocument storage page hero)).
  destruct (checkIncomingTransition_effect env doc) as [Hl Hp].
  destruct (checkIncomingTransition env doc) as [[[] | e] s']; cbn in Hl, Hp |- *;
    (split; [exact Hl |]); intros t; cbn [pending set_debugPanel set_listening];
    destruct Hp as [-> | (id & data & ->)]; cbn;
    try (intros H; now apply elem_of_nil in H);
    intros ->%list_elem_of_singleton; exact I.
Qed.

Lemma step_stays env e s :
  ~ is_click (env, e) -> stays s -> stays (snd (step env e s)).
Proof.
  intros Hn Hs. destruct e as [link | link | id].
  - now destruct Hn.
  - rewrite step_preview. destruct (debugPanel s); [| exact Hs].
    destruct Hs as [Hl Hp].
    destruct (previewTransition_effect env link s)
      as (Hl' & _ & [Hp' | (id & w & rect & target & Hp')]);
      (split; [now rewrite Hl' |]); intros t; rewrite Hp'; [apply Hp |].
    intros [Hin | ->%list_elem_of_singleton]%elem_of_app;
      [now apply Hp | exact I].
  - rewrite step_fire. destruct (findTask id (pending s)) as [t0 |] eqn:Hf;
      [| exact Hs].
    apply findTask_elem in Hf as [Hin0 _]. destruct Hs as [Hl Hp].
    apply resume_stays; [now apply Hp |].
    split; [exact Hl |]. intros t Ht. apply Hp. cbn in Ht.
    now apply dropTask_sub in Ht.
Qed.

(** X9.  Without a click there is no navigation: on any document, whatever
    the storage held at load and whatever previews are run and animations
    or timers complete, [location.href] is never assigned. *)
Theorem no_click_no_navigation evs env storage page hero :
  Forall (fun ev => ~ is_click ev) evs ->
  location (run evs (snd (load env storage page hero))) = None.
Proof.
  intros Hev.
  assert (H : forall s, stays s -> stays (run evs s)).
  { induction Hev as [| [env' e] evs Hn _ IH]; intros s Hs; cbn; [exact Hs |].
    apply IH. now apply step_stays. }
  apply (H _ (load_stays env storage page hero)).
Qed.

Lemma no_click_no_navigation_witness :
  location
    (run [(at_time 100, Preview plain_link); (at_time 700, Fire 1);
          (at_time 2050, Fire 2)]
       (snd (load (at_time 2000) (sessionStorage clicked) (Some false)
               (Some (mkHero "" false)))))
  = None.
Proof.
  apply no_click_no_navigation.
  repeat constructor; intros H; exact H.
Defined.

(** ** The phases from start to end *)

Lemma load_idle env page hero :
  load env None page hero =
  (Ok tt, mkState None None false (VStr "") None page hero
            [] None false true true [] 0).
Proof. reflexivity. Qed.

Lemma load_armed env (data : JObject) p h :
  (Num.of_Z (now env) - ToNumber (prop data "timestamp") > n3000)%num = false ->
  load env (Some (JSONObject data)) (Some p) (Some h) =
  (Ok tt,
   mkState None None true (prop data "fillColor") None (Some p)
     (Some (mkHero "0" (hero_visible h)))
     [mkElement 0 (prop data "svgContent") (expandedBox env data)]
     (Some 0%nat) false true true
     [mkTask 1 (Timeout 50) (AfterSettle data)] 2).
Proof.
  intros Hage. unfold load. rewrite init_unfold.
  set (doc := set_overlay [] (newDocument (Some (JSONObject data)) (Some p)
                                (Some h))).
  rewrite (checkIncomingTransition_object env doc data eq_refl). cbn zeta.
  rewrite Hage. reflexivity.
Qed.

(** X10.  Once the shrink phase is armed at load (a record that passes the
    age test, both markers present) it hides the hero and places one clone;
    then the settle delay, the shrink and the fade, completing in turn,
    always end with the hero and the page visible, the hero's forced
    opacity cleared, the background restored, the overlay empty and no
    work left, for every record whose members are scalars (strings,
    numbers, booleans or null) and every viewport. *)
Theorem shrink_runs_to_reveal env (data : JObject) p h env1 env2 env3 :
  (Num.of_Z (now env) - ToNumber (prop data "timestamp") > n3000)%num = false ->
  let armed := snd (load env (Some (JSONObject data)) (Some p) (Some h)) in
  heroLogo armed = Some (mkHero "0" (hero_visible h)) /\
  overlay armed =
    [mkElement 0 (prop data "svgContent") (expandedBox env data)] /\
  run [(env1, Fire 1); (env2, Fire 2); (env3, Fire 3)] armed =
    mkState None None false (VStr "") None (Some true)
      (Some (mkHero "" true)) [] None false true true [] 4.
Proof.
  intros Hage armed. subst armed. rewrite (load_armed env data p h Hage).
  repeat split.
Qed.

Lemma shrink_runs_to_reveal_witness :
  run [(at_time 2050, Fire 1); (at_time 2650, Fire 2); (at_time 2850, Fire 3)]
    (snd (load (at_time 2000) (Some (JSONObject (handoff (at_time 1000) plain_data)))
            (Some false) (Some (mkHero "" false))))
  = mkState None None false (VStr "") None (Some true)
      (Some (mkHero "" true)) [] None false true true [] 4.
Proof.
  exact (proj2 (proj2 (shrink_runs_to_reveal (at_time 2000)
                         (handoff (at_time 1000) plain_data) false
                         (mkHero "" false) (at_time 2050) (at_time 2650)
                         (at_time 2850) eq_refl))).
Defined.

(** X11.  The inspector's preview is a round trip on an idle page: it
    expands one clone to the very box [expandLogo] would use, holds, shrinks
    it back, and when its two animations and its timer have completed the
    page is as it was after load: empty overlay, no flag, no pending work,
    storage and location untouched. *)
Theorem preview_round_trip env page hero link serviceData env0 env1 env2 env3 :
  let idle := snd (load env None page hero) in
  getServiceData link idle = (Ok serviceData, idle) ->
  let started := snd (step env0 (Preview link) idle) in
  overlay started =
    [mkElement 0 (VStr (svgContent serviceData)) (rect serviceData)] /\
  pending started =
    [mkTask 1
       (Animation 0 (boxFrame (rect serviceData))
          (boxFrame (expandTarget env0 serviceData)) 600)
       (PreviewExpanded (rect serviceData) (expandTarget env0 serviceData))] /\
  sessionStorage started = None /\
  run [(env1, Fire 1); (env2, Fire 2); (env3, Fire 3)] started =
    set_next_id 4 idle.
Proof.
  intros idle Hg started. subst started idle. rewrite load_idle in *.
  cbn [snd] in *. rewrite step_preview. cbn [debugPanel].
  rewrite (previewTransition_state env0 link serviceData _ Hg).
  repeat split.
Qed.

Lemma preview_round_trip_witness :
  let idle := snd (load (at_time 0) None None None) in
  let started := snd (step (at_time 100) (Preview plain_link) idle) in
  run [(at_time 700, Fire 1); (at_time 1200, Fire 2); (at_time 1800, Fire 3)]
    started
  = set_next_id 4 idle.
Proof.
  exact (proj2 (proj2 (proj2
           (preview_round_trip (at_time 0) None None plain_link plain_data
              (at_time 100) (at_time 700) (at_time 1200) (at_time 1800)
              eq_refl)))).
Defined.

Lemma run_stuck evs s :
  isTransitioning s = true -> pending s = [] ->
  Forall (fun ev => match snd ev with Preview _ => False | _ => True end) evs ->
  run evs s = s.
Proof.
  intros Ht Hp Hev. induction Hev as [| [env e] evs He _ IH]; [reflexivity |].
  cbn [run]. destruct e as [link | link | id].
  - rewrite step_click. unfold onClick, bind, gets. cbn beta iota. rewrite Ht.
    destruct (listening s); exact IH.
  - destruct He.
  - rewrite step_fire, Hp. exact IH.
Qed.

(** X12.  On the origin page a transition is never undone: after a click
    on a link with a logo and the finish of its expand animation,
    [location.href] has been assigned the link's href (or null when the
    link has none), the clone is still in the overlay and
    [isTransitioning] is still set; from then on every further click and
    every completion event leaves the page exactly as it is. *)
Theorem origin_stays_in_flight env page hero link serviceData env1 env2 evs :
  let idle := snd (load env None page hero) in
  getServiceData link idle = (Ok serviceData, idle) ->
  Forall (fun ev => match snd ev with Preview _ => False | _ => True end) evs ->
  let gone := run [(env1, Click link); (env2, Fire 1)] idle in
  location gone = Some (getAttribute_href link) /\
  (href link = None -> location gone = Some VNull) /\
  sessionStorage gone = Some (JSONObject (handoff env1 serviceData)) /\
  overlay gone =
    [mkElement 0 (VStr (svgContent serviceData)) (rect serviceData)] /\
  isTransitioning gone = true /\
  run evs gone = gone.
Proof.
  intros idle Hg Hev gone.
  assert (E : gone =
    mkState (Some (JSONObject (handoff env1 serviceData)))
      (Some (getAttribute_href link)) true (VStr (fillColor serviceData))
      (Some (VStr (fillColor serviceData))) page hero
      [mkElement 0 (VStr (svgContent serviceData)) (rect serviceData)]
      (Some 0%nat) true true true [] 2).
  { subst gone idle. rewrite load_idle in *. cbn [snd run] in *.
    rewrite step_click. cbn [listening].
    unfold onClick, bind at 1, gets. cbn beta iota.
    cbn [isTransitioning]. unfold bind at 1. rewrite Hg.
    rewrite startTransition_state. reflexivity. }
  rewrite E. cbn [location sessionStorage overlay isTransitioning].
  split; [reflexivity |]. split.
  { intros Hh. unfold getAttribute_href. now rewrite Hh. }
  do 3 (split; [reflexivity |]).
  now apply run_stuck.
Qed.

Lemma origin_stays_in_flight_witness :
  let idle := snd (load (at_time 0) None None None) in
  let gone :=
    run [(at_time 1000, Click plain_link); (at_time 1800, Fire 1)] idle in
  location gone = Some (VStr "spotify.html") /\
  run [(at_time 5000, Click zero_scale_link); (at_time 5100, Fire 1)] gone
  = gone.
Proof.
  intros idle gone.
  assert (Hev : Forall (fun ev : Env * Event =>
                          match snd ev with Preview _ => False | _ => True end)
                  [(at_time 5000, Click zero_scale_link);
                   (at_time 5100, Fire 1%nat)])
    by (repeat constructor).
  destruct (origin_stays_in_flight (at_time 0) None None plain_link plain_data
              (at_time 1000) (at_time 1800) _ eq_refl Hev)
    as (Hl & _ & _ & _ & _ & Hr).
  split; [exact Hl | exact Hr].
Defined.

(** ** The clone reference *)

Lemma logo_attached_frame s s' :
  overlay s' = overlay s -> transitionLogo s' = transitionLogo s ->
  isTransitioning s' = isTransitioning s ->
  logo_attached s -> logo_attached s'.
Proof. unfold logo_attached. intros -> -> ->. auto. Qed.

Lemma logo_attached_cleared s :
  transitionLogo s = None -> isTransitioning s = false -> logo_attached s.
Proof.
  unfold logo_attached. intros -> ->. split; [discriminate | discriminate].
Qed.

Lemma logo_attached_appended s' id html box children :
  overlay s' = children ++ [mkElement id html box] ->
  transitionLogo s' = Some id -> logo_attached s'.
Proof.
  unfold logo_attached. intros -> ->. split.
  - intros ? [= <-]. exists (mkElement id html box).
    split; [apply elem_of_app; right; now apply list_elem_of_singleton |].
    reflexivity.
  - eauto.
Qed.

Lemma resume_logo env k s :
  let s' := snd (resume env k s) in
  (overlay s' = overlay s /\ transitionLogo s' = transitionLogo s /\
   isTransitioning s' = isTransitioning s) \/
  (transitionLogo s' = None /\ isTransitioning s' = false).
Proof.
  cbn zeta. destruct k as [url | data | k' | | rect target | rect target |].
  - left. repeat split.
  - left. unfold resume, shrinkLogo.
    destruct (animate_cases (boxFrame (shrinkStart env data))
                (boxFrame (heroRect env)) shrinkDuration
                (ShrinkFinished AfterShrink) s) as [-> | (el & _ & ->)];
      repeat split.
  - left. unfold resume, fadeOut.
    destruct (animate_cases (mkKeyframe None (Fin 1)) (mkKeyframe None n0) 200
                k' s) as [-> | (el & _ & ->)]; repeat split.
  - right. apply (revealHero_frame s).
  - left. repeat split.
  - left. unfold resume.
    destruct (animate_cases (boxFrame target) (boxFrame rect) 600
                PreviewShrunk s) as [-> | (el & _ & ->)]; repeat split.
  - right. unfold resume, bind, modify. rewrite cleanup_result.
    destruct (transitionLogo s) eqn:Hl; cbn -[filter]; auto.
Qed.

Lemma load_logo_attached env storage page hero :
  logo_attached (snd (load env storage page hero)).
Proof.
  unfold load. rewrite init_unfold.
  set (doc := set_overlay [] (newDocument storage page hero)).
  assert (H : logo_attached (snd (checkIncomingTransition env doc))).
  { destruct (checkIncomingTransition_cases env doc)
      as [-> | [-> | (data & ->)]].
    - now apply logo_attached_cleared.
    - now apply logo_attached_cleared.
    - rewrite completeTransition_state. cbn [snd].
      eapply logo_attached_appended; reflexivity. }
  destruct (checkIncomingTransition env doc) as [[[] | e] s']; cbn [snd] in *;
    [| exact H].
  revert H. apply logo_attached_frame; reflexivity.
Qed.

Lemma step_logo_attached env e s :
  logo_attached s -> logo_attached (snd (step env e s)).
Proof.
  intros Hs. destruct e as [link | link | id].
  - rewrite step_click. destruct (listening s); [| exact Hs].
    destruct (onClick_cases env link s)
      as [[_ ->] | [(e & ->) | (sd & _ & _ & ->)]]; try exact Hs.
    rewrite startTransition_state. cbn [snd].
    eapply logo_attached_appended; reflexivity.
  - rewrite step_preview. destruct (debugPanel s); [| exact Hs].
    destruct (getServiceData link s) as [[sd | e] s1] eqn:Hg.
    + destruct (getServiceData_pure _ _ _ _ Hg) as [-> _].
      rewrite (previewTransition_state env link sd s Hg). cbn [snd].
      eapply logo_attached_appended; reflexivity.
    + unfold previewTransition, bind at 1. rewrite Hg. cbn [snd].
      now rewrite (getServiceData_throws _ _ _ _ Hg).
  - rewrite step_fire. destruct (findTask id (pending s)) as [t |];
      [| exact Hs].
    set (s0 := set_pending (dropTask id (pending s)) s).
    assert (H0 : logo_attached s0)
      by (revert Hs; apply logo_attached_frame; reflexivity).
    destruct (resume_logo env (kont t) s0) as [(Ho & Hl & Hi) | [Hl Hi]].
    + revert H0. now apply logo_attached_frame.
    + now apply logo_attached_cleared.
Qed.

(** X13.  In a document whose stored item, if there is one, is text that
    is not JSON, the text [null], or a JSON object whose members are
    scalars (strings, numbers, booleans or null): in every reachable state
    [this.transitionLogo], when it is set, refers to an element that is a
    child of the overlay, and it is set whenever [isTransitioning] is, so
    the reference is never left dangling and an in-flight transition
    always has its clone to animate. *)
Theorem reachable_logo_attached s :
  reachable s ->
  (forall id, transitionLogo s = Some id ->
              exists el, el ∈ overlay s /\ el_id el = id) /\
  (isTransitioning s = true -> is_Some (transitionLogo s)).
Proof.
  induction 1 as [env storage page hero | env e s _ IH].
  - apply load_logo_attached.
  - now apply step_logo_attached.
Qed.

Lemma reachable_logo_attached_witness :
  transitionLogo clicked = Some 0%nat /\
  exists el, el ∈ overlay clicked /\ el_id el = 0%nat.
Proof.
  split; [reflexivity |].
  refine (proj1 (reachable_logo_attached clicked _) 0%nat eq_refl).
  unfold clicked. apply reachable_step, reachable_load.
Defined.

(** X14.  [cleanup] always ends normally with no clone reference and the
    in-flight flag cleared; it removes from the overlay exactly the
    children that are the referenced clone, touches nothing else, and
    calling it again changes nothing. *)
Theorem cleanup_idempotent s :
  let s1 := snd (cleanup s) in
  fst (cleanup s) = Ok tt /\
  transitionLogo s1 = None /\
  isTransitioning s1 = false /\
  (forall el, el ∈ overlay s1 <->
              el ∈ overlay s /\ transitionLogo s <> Some (el_id el)) /\
  (sessionStorage s1, location s1, pending s1, heroLogo s1, servicePage s1)
  = (sessionStorage s, location s, pending s, heroLogo s, servicePage s) /\
  cleanup s1 = (Ok tt, s1).
Proof.
  cbn zeta. rewrite (cleanup_result s). cbn [fst snd].
  match goal with |- context [set_isTransitioning false ?x] =>
    set (s1 := set_isTransitioning false x) end.
  assert (H1 : transitionLogo s1 = None)
    by (subst s1; destruct (transitionLogo s) eqn:E; cbn; auto).
  split; [reflexivity |]. split; [exact H1 |].
  split; [subst s1; destruct (transitionLogo s); reflexivity |].
  split.
  { intros el. subst s1.
    destruct (transitionLogo s) as [id |] eqn:E; cbn -[filter].
    - rewrite list_elem_of_filter.
      split; intros [? ?]; split; auto; congruence.
    - split; [intros Hin; split; [exact Hin | discriminate] | tauto]. }
  split; [subst s1; destruct (transitionLogo s); reflexivity |].
  rewrite (cleanup_result s1), H1. reflexivity.
Qed.

(** ** The inspector *)

Lemma lower_is_d c :
  Ascii.eqb (lower c) "d" = (Ascii.eqb c "d" || Ascii.eqb c "D")%bool.
Proof. destruct c as [[] [] [] [] [] [] [] []]; reflexivity. Qed.

Lemma toLowerCase_is_d k :
  String.eqb (toLowerCase k) "d" = (String.eqb k "d" || String.eqb k "D")%bool.
Proof.
  destruct k as [| c [| c' r]]; [reflexivity | |].
  - cbn [toLowerCase String.eqb]. rewrite lower_is_d.
    destruct (Ascii.eqb c "d"), (Ascii.eqb c "D"); reflexivity.
  - cbn [toLowerCase String.eqb].
    destruct (Ascii.eqb (lower c) "d"), (Ascii.eqb c "d"), (Ascii.eqb c "D");
      reflexivity.
Qed.

Lemma onKeydown_toggles e p :
  onKeydown e p =
  if toggles e
  then mkInspector (negb (debugMode p)) (negb (debugMode p))
  else p.
Proof.
  unfold onKeydown, toggles. rewrite toLowerCase_is_d.
  destruct (String.eqb (key e) "d" || String.eqb (key e) "D")%bool,
    (ctrlKey e), (metaKey e); cbn; try reflexivity.
  destruct (tagName e) as [t |]; [| reflexivity].
  destruct (String.eqb t "INPUT" || String.eqb t "TEXTAREA")%bool; reflexivity.
Qed.

Lemma keydowns_from p0 evs :
  panel_visible p0 = debugMode p0 ->
  let p := fold_left (fun p e => onKeydown e p) evs p0 in
  panel_visible p = debugMode p /\
  debugMode p = xorb (debugMode p0) (Nat.odd (length (List.filter toggles evs))).
Proof.
  revert p0. induction evs as [| e evs IH]; intros p0 H0; cbn zeta.
  - cbn. split; [exact H0 | now rewrite xorb_false_r].
  - cbn [fold_left List.filter]. rewrite onKeydown_toggles.
    destruct (toggles e).
    + destruct (IH (mkInspector (negb (debugMode p0)) (negb (debugMode p0)))
                  eq_refl) as [Hv Hd].
      split; [exact Hv |]. rewrite Hd. cbn [debugMode length].
      rewrite Nat.odd_succ, <- Nat.negb_odd.
      destruct (debugMode p0), (Nat.odd _); reflexivity.
    + apply IH, H0.
Qed.

(** X15.  The keyboard shortcut: a keydown flips the inspector exactly
    when the key is "d" or "D", neither Ctrl nor Meta is held and the
    target is not an INPUT or TEXTAREA; any other keydown changes nothing.
    Hence after any sequence of key presses the panel is visible exactly
    when [debugMode] is set, which is when the number of flipping presses
    is odd. *)
Theorem keyboard_toggle :
  (forall e p,
     onKeydown e p =
     if toggles e
     then mkInspector (negb (debugMode p)) (negb (debugMode p))
     else p) /\
  (forall evs,
     let p := fold_left (fun p e => onKeydown e p) evs closedInspector in
     panel_visible p = debugMode p /\
     debugMode p = Nat.odd (length (List.filter toggles evs))).
Proof.
  split; [exact onKeydown_toggles |].
  intros evs. exact (keydowns_from closedInspector evs eq_refl).
Qed.

(** ** Slider values *)

Lemma small_cases d :
  0 <= d < 10 ->
  d = 0 \/ d = 1 \/ d = 2 \/ d = 3 \/ d = 4 \/ d = 5 \/ d = 6 \/ d = 7 \/
  d = 8 \/ d = 9.
Proof. lia. Qed.

Lemma digit_digitChar d : 0 <= d < 10 -> Lex.digit 10 (digitChar d) = Some d.
Proof.
  intros H. destruct (small_cases d H)
    as [-> | [-> | [-> | [-> | [-> | [-> | [-> | [-> | [-> | ->]]]]]]]]];
    reflexivity.
Qed.

(** A numeral starts with a digit: no white space, sign or [Infinity] is
    seen by the parser in front of it. *)
Lemma digitChar_head d rest :
  0 <= d < 10 ->
  Lex.trimStart (String (digitChar d) rest) = String (digitChar d) rest /\
  Lex.sign (String (digitChar d) rest) = (false, String (digitChar d) rest) /\
  String.prefix "Infinity" (String (digitChar d) rest) = false.
Proof.
  intros H. destruct (small_cases d H)
    as [-> | [-> | [-> | [-> | [-> | [-> | [-> | [-> | [-> | ->]]]]]]]]];
    repeat split.
Qed.

Lemma natDigits_head fuel n acc :
  fuel <> O -> 0 <= n ->
  exists d rest, 0 <= d < 10 /\ natDigits fuel n acc = String (digitChar d) rest.
Proof.
  revert n acc. induction fuel as [| fuel IH]; intros n acc Hf Hn;
    [congruence |].
  cbn [natDigits]. destruct (n <? 10) eqn:Hlt.
  - exists (n mod 10), acc. split; [apply Z.mod_pos_bound; lia | reflexivity].
  - destruct fuel as [| fuel'].
    + exists (n mod 10), acc. split; [apply Z.mod_pos_bound; lia | reflexivity].
    + apply IH; [congruence |]. apply Z.div_pos; lia.
Qed.

Lemma natDigits_parse fuel n acc :
  0 <= n < 10 ^ Z.of_nat (S fuel) ->
  exists k, 0 < k /\
    forall a c,
      Lex.digits 10 (natDigits (S fuel) n acc) a c
      = Lex.digits 10 acc (a * 10 ^ k + n) (c + k).
Proof.
  revert n acc. induction fuel as [| fuel IH]; intros n acc Hn;
    cbn [natDigits]; destruct (n <? 10) eqn:Hlt;
    try (apply Z.ltb_lt in Hlt; exists 1; split; [lia |]; intros a c;
         rewrite Z.mod_small by lia; cbn [Lex.digits];
         rewrite digit_digitChar by lia; f_equal; lia).
  - apply Z.ltb_ge in Hlt. cbn in Hn. lia.
  - apply Z.ltb_ge in Hlt.
    assert (Hdiv : 0 <= n / 10 < 10 ^ Z.of_nat (S fuel)).
    { split; [apply Z.div_pos; lia |].
      apply Z.div_lt_upper_bound; [lia |].
      replace (10 * 10 ^ Z.of_nat (S fuel)) with (10 ^ Z.of_nat (S (S fuel)));
        [lia |].
      rewrite (Nat2Z.inj_succ (S fuel)), Z.pow_succ_r by lia. reflexivity. }
    destruct (IH (n / 10) (String (digitChar (n mod 10)) acc) Hdiv)
      as (k & Hk & Hparse).
    exists (k + 1). split; [lia |]. intros a c.
    specialize (Hparse a c). cbn [natDigits] in Hparse. rewrite Hparse.
    cbn [Lex.digits].
    rewrite digit_digitChar by (apply Z.mod_pos_bound; lia).
    f_equal; [| lia].
    rewrite Z.pow_add_r, Z.pow_1_r by lia.
    pose proof (Z.div_mod n 10 ltac:(lia)). lia.
Qed.

Lemma fuel_enough n :
  0 <= n -> n < 10 ^ Z.of_nat (S (Z.to_nat (Z.log2 n))).
Proof.
  intros Hn. rewrite Nat2Z.inj_succ, Z2Nat.id by apply Z.log2_nonneg.
  destruct (Z.eq_dec n 0) as [-> | Hz]; [reflexivity |].
  pose proof (Z.log2_spec n ltac:(lia)) as [_ Hlt].
  eapply Z.lt_le_trans; [exact Hlt |].
  apply Z.pow_le_mono_l. pose proof (Z.log2_nonneg n). lia.
Qed.

Lemma Qred_integer m : Qred (inject_Z m * Qpower 10 (0 - 0))%Q = inject_Z m.
Proof.
  transitivity (Qred (inject_Z m));
    [| apply Qcanon.Qred_identity, Z.gcd_1_r].
  apply Qred_complete. change (Qpower 10 (0 - 0)) with 1%Q.
  apply Qmult_1_r.
Qed.

Lemma decimal_natural n :
  0 <= n ->
  Lex.decimal (natDigits (S (Z.to_nat (Z.log2 n))) n "")
  = Some ((inject_Z n * Qpower 10 (0 - 0))%Q, "").
Proof.
  intros Hn.
  destruct (natDigits_parse (Z.to_nat (Z.log2 n)) n ""
              (conj Hn (fuel_enough n Hn))) as (k & Hk & Hparse).
  unfold Lex.decimal. rewrite Hparse. cbn [Lex.digits].
  rewrite Z.mul_0_l, Z.add_0_l, Z.add_0_l.
  destruct (k =? 0) eqn:Hk0; [apply Z.eqb_eq in Hk0; lia |].
  reflexivity.
Qed.

Lemma minus_head r : Lex.trimStart (String "-" r) = String "-" r.
Proof. reflexivity. Qed.

Lemma minus_sign r : Lex.sign (String "-" r) = (true, r).
Proof. reflexivity. Qed.

(** Reading back a numeral gives the integer it denotes. *)
Lemma parseFloat_integerString z :
  parseFloat (Some (integerString z)) = Num.of_Z z.
Proof.
  unfold parseFloat, Lex.parseFloat_string, integerString, Num.of_Z.
  destruct (z <? 0) eqn:Hneg.
  - apply Z.ltb_lt in Hneg. rewrite minus_head. unfold Lex.literal.
    rewrite minus_sign.
    destruct (natDigits_head (S (Z.to_nat (Z.log2 (- z)))) (- z) ""
                ltac:(congruence) ltac:(lia)) as (d & rest & Hd & Hhead).
    destruct (digitChar_head d rest Hd) as (_ & _ & Hinf).
    rewrite Hhead, Hinf, <- Hhead. rewrite decimal_natural by lia.
    unfold Lex.signed. f_equal.
    transitivity (Qred (inject_Z z));
      [| apply Qcanon.Qred_identity, Z.gcd_1_r].
    apply Qred_complete. change (Qpower 10 (0 - 0)) with 1%Q.
    rewrite Qmult_1_r, inject_Z_opp. apply Qopp_involutive.
  - apply Z.ltb_ge in Hneg.
    destruct (natDigits_head (S (Z.to_nat (Z.log2 z))) z ""
                ltac:(congruence) Hneg) as (d & rest & Hd & Hhead).
    destruct (digitChar_head d rest Hd) as (Htrim & Hsign & Hinf).
    rewrite Hhead, Htrim. unfold Lex.literal. rewrite Hsign, Hinf, <- Hhead.
    rewrite decimal_natural by lia.
    unfold Lex.signed. f_equal. apply Qred_integer.
Qed.

Lemma num_or_of_Z z d :
  num_or (Num.of_Z z) d = if z =? 0 then d else Num.of_Z z.
Proof.
  unfold num_or, Num.of_Z, Num.truthy, Num.Qzero. cbn [Qnum inject_Z].
  destruct (z =? 0); reflexivity.
Qed.

(** X17.  Slider edits reach the transition: after [updateLogoSettings]
    has copied the slider values of integer positions [z1], [z2], [z3] to
    the link, the resolver returns scale [z1] (or 15 when [z1] is 0) and
    offsets [z2] and [z3], with the link's colour, svg and rectangle
    unchanged. *)
Theorem slider_values_reach_resolver link s d s' z1 z2 z3 :
  getServiceData link s = (Ok d, s') ->
  getServiceData
    (updateLogoSettings (integerString z1) (integerString z2)
       (integerString z3) link) s
  = (Ok (mkServiceData (serviceName d) (fillColor d) (svgContent d) (rect d)
           (if z1 =? 0 then Fin 15 else Num.of_Z z1)
           (Num.of_Z z2) (Num.of_Z z3)),
     s).
Proof.
  intros H. apply getServiceData_pure in H as (_ & w & html & Hw & Hsvg & ->).
  rewrite getServiceData_result.
  cbn [updateLogoSettings logoWrapper data_service data_color data_scale
         data_offset_x data_offset_y serviceName fillColor svgContent rect].
  rewrite Hw, Hsvg, !parseFloat_integerString, !num_or_of_Z.
  assert (Hz : forall z, (if z =? 0 then n0 else Num.of_Z z) = Num.of_Z z).
  { intros z. destruct (z =? 0) eqn:E; [| reflexivity].
    apply Z.eqb_eq in E. now subst. }
  unfold defaults_offsetX, defaults_offsetY. rewrite !Hz. reflexivity.
Qed.

Lemma slider_values_reach_resolver_witness :
  getServiceData (updateLogoSettings "40" "-15" "0" plain_link)
    (newDocument None None None)
  = (Ok (mkServiceData "spotify" "#1DB954" "<svg></svg>"
           (mkRect (Fin 100) (Fin 200) n64 n64) (Fin 40) (Fin (-15)) (Fin 0)),
     newDocument None None None).
Proof.
  exact (slider_values_reach_resolver plain_link (newDocument None None None)
           plain_data (newDocument None None None) 40 (-15) 0 eq_refl).
Defined.

(** ** After a failed constructor *)

Lemma checkIncomingTransition_throws env s e :
  fst (checkIncomingTransition env s) = Throw e ->
  snd (checkIncomingTransition env s) = s.
Proof.
  destruct (sessionStorage s) as [[text | | data] |] eqn:Hs.
  - unfold checkIncomingTransition, takeIfFresh, bind, gets, throw, ret.
    rewrite Hs. cbn [text_is_empty]. destruct (String.eqb text ""); reflexivity.
  - unfold checkIncomingTransition, takeIfFresh, bind, gets, throw, ret.
    rewrite Hs. reflexivity.
  - rewrite (checkIncomingTransition_object env s data Hs). cbn zeta.
    destruct (_ > _)%num; [discriminate |].
    destruct (servicePage s), (heroLogo s); discriminate.
  - rewrite (checkIncomingTransition_empty env s Hs). discriminate.
Qed.

Lemma run_inert evs s :
  listening s = false -> debugPanel s = false -> pending s = [] ->
  run evs s = s.
Proof.
  intros Hl Hd Hp. induction evs as [| [env e] evs IH]; [reflexivity |].
  cbn [run]. destruct e as [link | link | id].
  - rewrite step_click, Hl. exact IH.
  - rewrite step_preview, Hd. exact IH.
  - rewrite step_fire, Hp. exact IH.
Qed.

(** X18.  When the constructor ends in an exception (the stored text could
    not be read), the page is left without any transition behaviour: the
    overlay is empty, no handler or inspector is wired, the storage still
    holds the text, and no click, preview or completion event changes
    anything afterwards. *)
Theorem failed_constructor_is_inert env storage page hero e evs :
  fst (load env storage page hero) = Throw e ->
  let s := snd (load env storage page hero) in
  s = set_overlay [] (newDocument storage page hero) /\
  run evs s = s.
Proof.
  intros Hf s. subst s. revert Hf. unfold load. rewrite init_unfold.
  set (doc := set_overlay [] (newDocument storage page hero)).
  pose proof (checkIncomingTransition_throws env doc) as Ht.
  destruct (checkIncomingTransition env doc) as [[[] | e'] s']; cbn [fst snd] in *;
    [discriminate |].
  intros _. rewrite (Ht e' eq_refl). split; [reflexivity |].
  now apply run_inert.
Qed.

Lemma failed_constructor_is_inert_witness :
  let s := snd (load (at_time 2000) (Some (NotJSON "{bad")) (Some false) None) in
  run [(at_time 3000, Click plain_link); (at_time 3100, Preview plain_link)] s
  = s.
Proof.
  intros s.
  exact (proj2 (failed_constructor_is_inert (at_time 2000)
                  (Some (NotJSON "{bad")) (Some false) None SyntaxError
                  [(at_time 3000, Click plain_link);
                   (at_time 3100, Preview plain_link)] eq_refl)).
Defined.

(** ** From one document to the next *)

Lemma age_of_handoff env0 env1 serviceData :
  (Num.of_Z (now env1)
   - ToNumber (prop (handoff env0 serviceData) "timestamp") > n3000)%num
  = negb (now env1 - now env0 <=? 3000).
Proof.
  change (prop (handoff env0 serviceData) "timestamp")
    with (VNum (Fin (inject_Z (now env0)))).
  cbn [ToNumber]. rewrite age_test. f_equal.
  apply eq_true_iff_eq. rewrite Qle_bool_iff, Z.leb_le.
  unfold Qminus. rewrite <- inject_Z_opp, <- inject_Z_plus.
  change 3000%Q with (inject_Z 3000). rewrite <- Zle_Qle. lia.
Qed.

(** X19.  Across the navigation: for a link on which the resolver returns,
    clicked on an idle page, a destination page with both markers that
    loads at most 3000 ms after the click shows a clone with the same
    content as the origin's clone, paints the body in the same colour,
    hides its hero and empties the storage; loaded any later, it only
    empties the storage. *)
Theorem click_then_arrive env page hero link serviceData env0 env1 p h :
  let idle := snd (load env None page hero) in
  getServiceData link idle = (Ok serviceData, idle) ->
  let origin := snd (step env0 (Click link) idle) in
  let arrived := snd (load env1 (sessionStorage origin) (Some p) (Some h)) in
  sessionStorage arrived = None /\
  (now env1 - now env0 <= 3000 ->
   map innerHTML (overlay arrived) = map innerHTML (overlay origin) /\
   body_backgroundColor arrived = body_backgroundColor origin /\
   map cssText (overlay arrived)
     = [expandedBox env1 (handoff env0 serviceData)] /\
   heroLogo arrived = Some (mkHero "0" (hero_visible h))) /\
  (3000 < now env1 - now env0 ->
   overlay arrived = [] /\ heroLogo arrived = Some h /\ pending arrived = []).
Proof.
  intros idle Hg origin arrived.
  assert (E : origin = snd (startTransition env0 (getAttribute_href link)
                              serviceData idle)).
  { subst origin idle. rewrite load_idle in *. cbn [snd] in *.
    rewrite step_click. cbn [listening].
    unfold onClick, bind at 1, gets. cbn beta iota. cbn [isTransitioning].
    unfold bind at 1. now rewrite Hg. }
  rewrite startTransition_state in E. cbn [snd] in E.
  subst arrived. rewrite E. cbn [sessionStorage overlay body_backgroundColor].
  destruct (now env1 - now env0 <=? 3000) eqn:Hage.
  - rewrite load_armed by (rewrite age_of_handoff, Hage; reflexivity).
    cbn [snd sessionStorage overlay body_backgroundColor heroLogo map innerHTML
           cssText].
    apply Z.leb_le in Hage.
    split; [reflexivity |]. split; [| lia].
    intros _. subst idle. rewrite load_idle. repeat split.
  - apply Z.leb_gt in Hage.
    unfold load. rewrite init_unfold.
    set (doc := set_overlay [] (newDocument
                  (Some (JSONObject (handoff env0 serviceData))) (Some p)
                  (Some h))).
    rewrite (checkIncomingTransition_object env1 doc _ eq_refl). cbn zeta.
    rewrite age_of_handoff.
    replace (now env1 - now env0 <=? 3000) with false
      by (symmetry; apply Z.leb_gt; lia).
    cbn. split; [reflexivity |]. split; [lia |]. intros _. repeat split.
Qed.

Lemma click_then_arrive_witness :
  let idle := snd (load (at_time 0) None None None) in
  let origin := snd (step (at_time 1000) (Click plain_link) idle) in
  let arrived :=
    snd (load (at_time 2000) (sessionStorage origin) (Some false)
           (Some (mkHero "" false))) in
  map innerHTML (overlay arrived) = map innerHTML (overlay origin).
Proof.
  intros idle origin arrived.
  refine (proj1 (proj1 (proj2 (click_then_arrive (at_time 0) None None
                                 plain_link plain_data (at_time 1000)
                                 (at_time 2000) false (mkHero "" false)
                                 eq_refl)) _)).
  cbn. lia.
Defined.

(** ** Where a single clone is guaranteed *)

Lemma resume_overlay env k s :
  (length (overlay (snd (resume env k s))) <= length (overlay s))%nat.
Proof.
  assert (Hc : forall x,
             (length (overlay (snd (cleanup x))) <= length (overlay x))%nat).
  { intros x. rewrite cleanup_result. cbn [snd].
    destruct (transitionLogo x); cbn -[filter]; [apply length_filter | lia]. }
  destruct k as [url | data | k' | | rect target | rect target |].
  - reflexivity.
  - unfold resume, shrinkLogo.
    destruct (animate_cases (boxFrame (shrinkStart env data))
                (boxFrame (heroRect env)) shrinkDuration
                (ShrinkFinished AfterShrink) s) as [-> | (el & _ & ->)];
      reflexivity.
  - unfold resume, fadeOut.
    destruct (animate_cases (mkKeyframe None (Fin 1)) (mkKeyframe None n0) 200
                k' s) as [-> | (el & _ & ->)]; reflexivity.
  - unfold resume, revealHero, onHero, bind, gets, modify. cbn beta iota.
    match goal with |- context [cleanup ?x] =>
      specialize (Hc x); rewrite (cleanup_result x) in Hc |- *
    end.
    cbn [snd fst] in *. exact Hc.
  - reflexivity.
  - unfold resume.
    destruct (animate_cases (boxFrame target) (boxFrame rect) 600
                PreviewShrunk s) as [-> | (el & _ & ->)]; reflexivity.
  - unfold resume, bind, modify. specialize (Hc s).
    rewrite cleanup_result in Hc |- *. cbn [snd fst] in *. exact Hc.
Qed.

Lemma load_overlay env storage page hero :
  let s := snd (load env storage page hero) in
  (length (overlay s) <= 1)%nat /\
  (overlay s = [] -> isTransitioning s = false /\ pending s = []).
Proof.
  cbn zeta. unfold load. rewrite init_unfold.
  set (doc := set_overlay [] (newDocument storage page hero)).
  assert (H : let s' := snd (checkIncomingTransition env doc) in
              (length (overlay s') <= 1)%nat /\
              (overlay s' = [] -> isTransitioning s' = false /\ pending s' = [])).
  { cbn zeta. destruct (checkIncomingTransition_cases env doc)
      as [-> | [-> | (data & ->)]].
    - cbn. auto.
    - cbn. auto.
    - rewrite completeTransition_state. cbn. split; [lia | discriminate]. }
  destruct (checkIncomingTransition env doc) as [[[] | e] s']; exact H.
Qed.

(** The state of an origin page on which only clicks have started
    anything: idle, or in flight with one clone and only navigation
    waiting. *)
Lemma clicks_keep_one_clone env e s :
  (match e with Preview _ => False | _ => True end) ->
  (isTransitioning s = false /\ overlay s = [] /\ pending s = []) \/
  (isTransitioning s = true /\ length (overlay s) = 1%nat /\
   forall t, t ∈ pending s -> exists url, kont t = AfterExpand url) ->
  let s' := snd (step env e s) in
  (isTransitioning s' = false /\ overlay s' = [] /\ pending s' = []) \/
  (isTransitioning s' = true /\ length (overlay s') = 1%nat /\
   forall t, t ∈ pending s' -> exists url, kont t = AfterExpand url).
Proof.
  intros He Hs. cbn zeta. destruct e as [link | link | id]; [| destruct He |].
  - rewrite step_click. destruct (listening s); [| exact Hs].
    destruct (onClick_cases env link s)
      as [[_ ->] | [(e & ->) | (sd & _ & Hb & ->)]]; try exact Hs.
    destruct Hs as [(_ & Ho & Hp) | (Ht & _)]; [| congruence].
    right. rewrite startTransition_state. cbn [snd isTransitioning overlay pending].
    rewrite Ho, Hp. split; [reflexivity |]. split; [reflexivity |].
    intros t ->%list_elem_of_singleton. cbn. eauto.
  - rewrite step_fire. destruct (findTask id (pending s)) as [t |] eqn:Hf;
      [| exact Hs].
    apply findTask_elem in Hf as [Hin _].
    destruct Hs as [(_ & _ & Hp) | (Ht & Ho & Hp)].
    + rewrite Hp in Hin. now apply elem_of_nil in Hin.
    + destruct (Hp t Hin) as [url ->]. right. cbn.
      split; [exact Ht |]. split; [exact Ho |].
      intros t' Hin'. apply Hp. now apply dropTask_sub in Hin'.
Qed.

(** X20.  Where the code does keep a single clone: on any document, as
    long as only animations and timers complete, the overlay never holds
    more than one clone; and on a document that loaded without arming the
    shrink, clicks and completions in any number and order never put more
    than one clone in the overlay. *)
Theorem one_clone_without_preview env storage page hero evs :
  let loaded := snd (load env storage page hero) in
  (Forall (fun ev => match snd ev with Fire _ => True | _ => False end) evs ->
   (length (overlay (run evs loaded)) <= 1)%nat) /\
  (overlay loaded = [] ->
   Forall (fun ev => match snd ev with Preview _ => False | _ => True end) evs ->
   (length (overlay (run evs loaded)) <= 1)%nat).
Proof.
  cbn zeta. destruct (load_overlay env storage page hero) as [Hlen Hidle].
  split.
  - intros Hev. revert Hlen. generalize (snd (load env storage page hero)).
    induction Hev as [| [env' e] evs He _ IH]; intros s Hs; [exact Hs |].
    cbn [run]. apply IH. destruct e as [| | id]; try destruct He.
    rewrite step_fire. destruct (findTask id (pending s)); [| exact Hs].
    etransitivity; [apply resume_overlay | exact Hs].
  - intros Hempty Hev. destruct (Hidle Hempty) as [Ht Hp].
    assert (H : forall s,
      (isTransitioning s = false /\ overlay s = [] /\ pending s = []) \/
      (isTransitioning s = true /\ length (overlay s) = 1%nat /\
       forall t, t ∈ pending s -> exists url, kont t = AfterExpand url) ->
      (length (overlay (run evs s)) <= 1)%nat).
    { induction Hev as [| [env' e] evs He _ IH]; intros s Hs.
      - cbn. destruct Hs as [(_ & -> & _) | (_ & -> & _)]; cbn; lia.
      - cbn [run]. apply IH. now apply clicks_keep_one_clone. }
    apply H. left. auto.
Qed.

Lemma one_clone_without_preview_witness :
  (length
    (overlay
       (run [(at_time 1000, Click plain_link); (at_time 1100, Click plain_link);
             (at_time 1800, Fire 1)]
          (snd (load (at_time 0) None None None)))) <= 1)%nat.
Proof.
  refine (proj2 (one_clone_without_preview (at_time 0) None None None
                   [(at_time 1000, Click plain_link);
                    (at_time 1100, Click plain_link);
                    (at_time 1800, Fire 1%nat)]) eq_refl _).
  repeat constructor.
Defined.
